(** * Flow decision engine of the SeniorAssist backend

    A shallow embedding of [backend/services/orchestrator.py] (local flow
    policy, LLM advisory decoding, merge policy, sub-flow refinement and
    the persistence step of [ConversationOrchestrator.process]) and of the
    reminder / emergency helpers of [backend/repositories/repository.py].

    Conventions of the embedding:
    - Python [str] is [string]; [str.lower] is modelled on ASCII letters
      (every keyword list of the module is ASCII apart from "sí");
      [a in b] on strings is [contains a b].
    - classifier confidences (Python floats) are rationals [Q]; the
      thresholds 0.6 and 0.7 are the decimal literals of the source.
    - datetimes are [Z] seconds; [Optional[X]] is [option X].
    - database tables are lists of rows in creation order, so
      [ORDER BY created_at DESC] is the reversed list.
    - the [FlowDecision] dataclass objects live in a small heap
      (a list indexed by location) so that in-place field assignment and
      aliasing are modelled as the code has them. *)

From Stdlib Require Import String Ascii List ZArith QArith Bool Lia.
Import ListNotations.
Open Scope string_scope.
Set Warnings "-register-all".

(** ** String helpers (Python [str] operations) *)

Definition lower_char (c : ascii) : ascii :=
  let n := nat_of_ascii c in
  if (65 <=? n)%nat && (n <=? 90)%nat then ascii_of_nat (n + 32) else c.

(** [str.lower] *)
Fixpoint lower (s : string) : string :=
  match s with
  | EmptyString => EmptyString
  | String c t => String (lower_char c) (lower t)
  end.

(** [needle in hay] *)
Fixpoint contains (needle hay : string) : bool :=
  prefix needle hay ||
  match hay with
  | EmptyString => false
  | String _ t => contains needle t
  end.

(** [any(k in txt for k in ks)] *)
Definition any_in (ks : list string) (txt : string) : bool :=
  existsb (fun k => contains k txt) ks.

Definition str_eqb (a b : string) : bool := if string_dec a b then true else false.

Definition mem (x : string) (xs : list string) : bool := existsb (str_eqb x) xs.

(** Python truthiness of an optional string ([None] and [""] are falsy). *)
Definition truthy (o : option string) : bool :=
  match o with
  | None => false
  | Some s => negb (str_eqb s "")
  end.

Definition Qltb (x y : Q) : bool := negb (Qle_bool y x).

(** ** Module constants *)

Definition EMERGENCY_LABELS : list string := ["emergencia_medica"; "alerta_medica"].
Definition RECORDATORIO_KEYWORDS : list string :=
  ["recordatorio"; "recordar"; "anotar"; "cita"; "alarma"; "recordarme"].
Definition ACOMP_LABELS : list string :=
  ["conversacion_social"; "saludo"; "despedida"; "motivacion_personal";
   "reporte_emocional"; "agradecimiento"; "no_entendido"].
Definition CONSULTA_LABELS : list string :=
  ["consulta_informacion"; "informacion_personal"; "monitoreo_salud";
   "configuracion_asistente"; "comando_dispositivo"].
Definition ALLOWED_FLOWS : list string :=
  ["emergencia"; "recordatorio"; "acompanamiento_social"; "consulta_informacion"].

(** ** Keyword predicates *)

Definition _keyword_recordatorio (text : string) : bool :=
  any_in RECORDATORIO_KEYWORDS (lower text).

Definition cancel_words : list string :=
  ["cancelar"; "cancela"; "olvida"; "olvidalo"; "anular"; "no gracias"; "no, gracias"].

Definition _is_cancel (text : string) : bool := any_in cancel_words (lower text).

Definition confirm_words : list string :=
  ["confirmo"; "confirma"; "confirmar"; "si"; "sí"; "dale"; "ok"; "okey"; "vale"; "de acuerdo"].

Definition _is_confirm (text : string) : bool := any_in confirm_words (lower text).

(** ** Classifier outputs and the safety gate verdict *)

(** [intent] dict: ["label"] (possibly missing) and ["score"]
    ([float(intent.get("score", 0))]). *)
Record Intent := mkIntent { i_label : option string; i_score : Q }.

(** [gate] dict of [predictors.safety_gate]. *)
Record Gate := mkGate { g_allow : bool; g_emergency : bool }.

(** ** FlowDecision dataclass *)

Record FlowDecision := mkFlowDecision {
  flow : string;
  next_prompt : option string;
  reason : string;
  source : string
}.

(** [FlowDecision(flow=..., next_prompt=..., reason=...)], default source. *)
Definition FD (f : string) (p : option string) (r : string) : FlowDecision :=
  mkFlowDecision f p r "local".

(** ** ConversationOrchestrator.decide_flow_local *)

(** [intent.get("label") or "no_entendido"] *)
Definition intent_label (intent : Intent) : string :=
  if truthy (i_label intent)
  then match i_label intent with Some l => l | None => "" end
  else "no_entendido".

Definition decide_flow_local (text : string) (intent : Intent) (gate : Gate) : FlowDecision :=
  let label := intent_label intent in
  let score := i_score intent in
  let gate_emergency := g_emergency gate in
  let has_emergency_intent := mem label EMERGENCY_LABELS in
  let recordatorio_by_keyword := _keyword_recordatorio text in
  if gate_emergency || has_emergency_intent then
    FD "emergencia"
       (Some "Emergencia detectada. Llamo a tu contacto de emergencia o a servicios de urgencia?")
       (if gate_emergency then "gate_emergency" else "intent_emergency")
  else if str_eqb label "recordatorio" && Qle_bool (6 # 10) score then
    FD "recordatorio" (Some "Entendido. Que debo recordar y a que hora?") "intent_recordatorio"
  else if recordatorio_by_keyword && Qltb score (7 # 10) then
    FD "recordatorio" (Some "Te ayudo a guardar un recordatorio. Que debo recordar y cuando?")
       "keyword_recordatorio"
  else if mem label CONSULTA_LABELS then
    FD "consulta_informacion" (Some "Claro, dime que informacion necesitas y te apoyo.")
       "intent_consulta"
  else if mem label ACOMP_LABELS then
    FD "acompanamiento_social"
       (Some "Estoy aqui contigo. Quieres contarme mas o necesitas apoyo en algo?")
       "intent_acompanamiento"
  else
    FD "acompanamiento_social" (Some "Estoy aqui para ayudarte. Como puedo apoyarte?")
       "fallback_acompanamiento".

(** ** ConversationOrchestrator.merge_flow_decisions (on values)

    [if not llm_decision]: a dataclass instance is always truthy, so only
    [None] takes the first branch. [x or y] on optional prompts is
    [or_else]. *)

Definition or_else (x y : option string) : option string :=
  if truthy x then x else y.

Definition merge_flow_decisions (local_decision : FlowDecision)
    (llm_decision : option FlowDecision) (intent_score : Q) : FlowDecision :=
  match llm_decision with
  | None => local_decision
  | Some llm =>
    let local_flow := flow local_decision in
    let llm_flow := flow llm in
    if str_eqb local_flow llm_flow then
      mkFlowDecision local_flow (next_prompt local_decision)
        (reason local_decision ++ "+llm_validated") "hybrid+validated"
    else if str_eqb local_flow "emergencia" || str_eqb llm_flow "emergencia" then
      mkFlowDecision "emergencia" (or_else (next_prompt llm) (next_prompt local_decision))
        ("emergencia_" ++ (if str_eqb llm_flow "emergencia" then llm_flow else "local"))
        "hybrid+safety"
    else if str_eqb local_flow "recordatorio" || str_eqb llm_flow "recordatorio" then
      mkFlowDecision "recordatorio" (or_else (next_prompt llm) (next_prompt local_decision))
        ("recordatorio_" ++ (if str_eqb llm_flow "recordatorio" then llm_flow else "local"))
        "hybrid+preservation"
    else
      mkFlowDecision llm_flow (next_prompt llm)
        ("llm_corrected_local (local=" ++ local_flow ++ ", llm=" ++ llm_flow ++ ")")
        "hybrid+corrected"
  end.

(** The source tags of the spec's data model are the code's strings
    under other names: [local] is "local", [advisory] is "llm",
    [merged_consensus] is "hybrid+validated", [merged_safety] is
    "hybrid+safety", [merged_preserved] is "hybrid+preservation",
    [merged_corrected] is "hybrid+corrected", [gate] is "gate". *)
Inductive SpecSource :=
| src_local | src_advisory | merged_consensus | merged_safety | merged_preserved
| merged_corrected | src_gate.

Definition spec_source (s : string) : option SpecSource :=
  if str_eqb s "local" then Some src_local
  else if str_eqb s "llm" then Some src_advisory
  else if str_eqb s "hybrid+validated" then Some merged_consensus
  else if str_eqb s "hybrid+safety" then Some merged_safety
  else if str_eqb s "hybrid+preservation" then Some merged_preserved
  else if str_eqb s "hybrid+corrected" then Some merged_corrected
  else if str_eqb s "gate" then Some src_gate
  else None.

(** ** FlowAssistant.suggest

    The decoded reply of the LLM is a JSON value; [json.loads] and
    [str(v)] on non-string values are left abstract (Section variables),
    as is the transport: one call either returns the message content
    ([None] content included) or raises (timeout, HTTP or transport
    error). Every exception raised inside the [try] block is caught by
    [except Exception] and turned into [None]. *)

Inductive json :=
| JNull
| JBool (b : bool)
| JNum (q : Q)
| JStr (s : string)
| JArr (xs : list json)
| JObj (kvs : list (string * json)).

Inductive call_result :=
| Replied (content : option string)
| Raised (exc : string).

Definition is_space (c : ascii) : bool :=
  let n := nat_of_ascii c in
  (n =? 32)%nat || ((9 <=? n)%nat && (n <=? 13)%nat).

Fixpoint lstrip (s : string) : string :=
  match s with
  | String c t => if is_space c then lstrip t else s
  | EmptyString => EmptyString
  end.

Fixpoint rev_string (s : string) (acc : string) : string :=
  match s with
  | EmptyString => acc
  | String c t => rev_string t (String c acc)
  end.

(** [str.strip] *)
Definition strip (s : string) : string :=
  rev_string (lstrip (rev_string (lstrip s) EmptyString)) EmptyString.

(** [s.split("\n")] *)
Fixpoint split_lines_aux (s : string) (cur : string) : list string :=
  match s with
  | EmptyString => [rev_string cur EmptyString]
  | String c t =>
    if (nat_of_ascii c =? 10)%nat then rev_string cur EmptyString :: split_lines_aux t EmptyString
    else split_lines_aux t (String c cur)
  end.

Definition split_lines (s : string) : list string := split_lines_aux s EmptyString.

Fixpoint join_lines (xs : list string) : string :=
  match xs with
  | [] => ""
  | [x] => x
  | x :: t => x ++ String (ascii_of_nat 10) EmptyString ++ join_lines t
  end.

(** [lines[1:-1]] *)
Definition inner_lines (xs : list string) : list string :=
  match xs with
  | [] => []
  | _ :: t => removelast t
  end.

Definition fence : string := "```".

(** The markdown code-fence removal of [suggest]. *)
Definition strip_fences (content : string) : string :=
  if prefix fence content then
    strip (join_lines (filter (fun l => negb (prefix fence l)) (inner_lines (split_lines content))))
  else content.

(** [dict.get] on the decoded value; a non-dict raises [AttributeError]
    ([None] here). JSON objects keep the last binding of a key. *)
Definition json_get (data : json) (k : string) (dflt : json) : option json :=
  match data with
  | JObj kvs =>
    match find (fun kv => str_eqb (fst kv) k) (rev kvs) with
    | Some kv => Some (snd kv)
    | None => Some dflt
    end
  | _ => None
  end.

(** Python truthiness of a JSON value ([bool(...)]). *)
Definition json_truthy (v : json) : bool :=
  match v with
  | JNull => false
  | JBool b => b
  | JNum q => negb (Qeq_bool q 0)
  | JStr s => negb (str_eqb s "")
  | JArr xs => negb (match xs with [] => true | _ => false end)
  | JObj kvs => negb (match kvs with [] => true | _ => false end)
  end.

Section Suggest.

Variable json_loads : string -> option json.
(** [str(v)] on numbers, lists and dicts. *)
Variable py_repr : json -> string.

Definition py_str (v : json) : string :=
  match v with
  | JStr s => s
  | JNull => "None"
  | JBool true => "True"
  | JBool false => "False"
  | _ => py_repr v
  end.

(** The value stored in [FlowDecision.next_prompt]; a JSON [null] or a
    missing key is [None]. *)
Definition prompt_of (v : json) : option string :=
  match v with
  | JNull => None
  | _ => Some (py_str v)
  end.

Definition suggest (enabled : bool) (llm_call : call_result) : option FlowDecision :=
  if negb enabled then None else
  match llm_call with
  | Raised _ => None
  | Replied c =>
    let content := strip_fences (strip (match c with Some s => s | None => "" end)) in
    match json_loads content with
    | None => None
    | Some data =>
      match json_get data "flow" (JStr "") with
      | None => None
      | Some fv =>
        let f := lower (strip (py_str fv)) in
        if negb (mem f ALLOWED_FLOWS) then None else
        match json_get data "next_prompt" JNull, json_get data "corrected" (JBool false) with
        | Some np, Some cv =>
          let corrected := json_truthy cv in
          Some (mkFlowDecision f (prompt_of np)
                  ("llm_validated (corrected=" ++ (if corrected then "True" else "False") ++ ")")
                  "llm")
        | _, _ => None
        end
      end
    end
  end.

End Suggest.

(** ** _reminder_slots

    The two regular expressions [\b\d{1,2}:\d{2}\b] and
    [\b\d{1,2}\s*(am|pm)\b] are matched by hand (ASCII digits and word
    characters). *)

Definition is_digit (c : ascii) : bool :=
  let n := nat_of_ascii c in (48 <=? n)%nat && (n <=? 57)%nat.

Definition is_word (c : ascii) : bool :=
  let n := nat_of_ascii c in
  is_digit c || ((97 <=? n)%nat && (n <=? 122)%nat) || ((65 <=? n)%nat && (n <=? 90)%nat)
  || (n =? 95)%nat.

Definition chars := list ascii.

Fixpoint to_chars (s : string) : chars :=
  match s with EmptyString => [] | String c t => c :: to_chars t end.

(** [\b] after a match: end of input or a non-word character. *)
Definition boundary_after (rest : chars) : bool :=
  match rest with [] => true | c :: _ => negb (is_word c) end.

(** [\d{k}] for [k] in 1..2, as the list of possible remainders. *)
Definition digits12 (cs : chars) : list chars :=
  match cs with
  | a :: b :: t => if is_digit a then (if is_digit b then [t; b :: t] else [b :: t]) else []
  | [a] => if is_digit a then [[]] else []
  | [] => []
  end.

Definition colon_two_digits (cs : chars) : bool :=
  match cs with
  | c :: a :: b :: t => (nat_of_ascii c =? 58)%nat && is_digit a && is_digit b && boundary_after t
  | _ => false
  end.

Fixpoint skip_spaces (cs : chars) : chars :=
  match cs with
  | c :: t => if is_space c then skip_spaces t else cs
  | [] => []
  end.

Definition am_pm (cs : chars) : bool :=
  match skip_spaces cs with
  | x :: m :: t =>
    (((nat_of_ascii x =? 97)%nat || (nat_of_ascii x =? 112)%nat) && (nat_of_ascii m =? 109)%nat)
    && boundary_after t
  | _ => false
  end.

(** [re.search] of a pattern starting with [\b\d{1,2}], [prev] being the
    character before the current position. *)
Fixpoint search_from (tail : chars -> bool) (prev : option ascii) (cs : chars) : bool :=
  let here :=
    match prev with Some p => negb (is_word p) | None => true end
    && existsb tail (digits12 cs) in
  here ||
  match cs with
  | [] => false
  | c :: t => search_from tail (Some c) t
  end.

Definition split_words (s : string) : list string :=
  filter (fun w => negb (str_eqb w ""))
    (fold_right
       (fun c acc =>
          if is_space c then "" :: acc
          else match acc with
               | w :: r => String c w :: r
               | [] => [String c ""]
               end)
       [""] (to_chars s)).

(** [txt.replace(",", " ")] *)
Fixpoint replace_commas (s : string) : string :=
  match s with
  | EmptyString => EmptyString
  | String c t =>
    String (if (nat_of_ascii c =? 44)%nat then " "%char else c) (replace_commas t)
  end.

Record Slots := mkSlots { has_time : bool; has_content : bool }.

Definition time_tokens : list string :=
  ["manana"; "hoy"; "tarde"; "noche"; "am"; "pm"; "minuto"; "hora"; "horas"].

Definition _reminder_slots (text : string) : Slots :=
  let txt := lower text in
  let has_time0 := any_in time_tokens txt in
  let has_time :=
    if search_from colon_two_digits None (to_chars txt)
       || search_from am_pm None (to_chars txt)
    then true else has_time0 in
  let words := filter (fun w => negb (mem w RECORDATORIO_KEYWORDS))
                 (split_words (replace_commas txt)) in
  mkSlots has_time (4 <=? length words)%nat.

(** ** The FlowDecision heap

    [decision.next_prompt = ...] and [decision.reason = ...] assign the
    fields of the object bound to [decision]; objects are kept in a list
    indexed by location. *)

Definition loc := nat.
Definition heap := list FlowDecision.

Definition dflt_decision : FlowDecision := FD "" None "".

Definition alloc (h : heap) (d : FlowDecision) : heap * loc := (app h [d], length h).

Definition deref (h : heap) (l : loc) : FlowDecision := nth l h dflt_decision.

Fixpoint update_at {A} (l : nat) (f : A -> A) (xs : list A) : list A :=
  match xs, l with
  | [], _ => []
  | x :: t, O => f x :: t
  | x :: t, S l' => x :: update_at l' f t
  end.

(** [decision.next_prompt = p; decision.reason = r] *)
Definition set_prompt_reason (h : heap) (l : loc) (p : option string) (r : string) : heap :=
  update_at l (fun d => mkFlowDecision (flow d) p r (source d)) h.

(** ** ConversationOrchestrator._handle_emergency: mutates and returns the
    same object. *)

Definition emergency_cancel_words : list string :=
  ["falsa alarma"; "ya estoy bien"; "no llames"; "no llames a nadie"; "no es necesario"; "todo bien"].
Definition emergency_confirm_words : list string :=
  ["llama"; "llamar"; "contacta"; "contactar"; "ambulancia"; "urgencias"; "emergencia"; "911"; "112"].

Definition _handle_emergency (h : heap) (text : string) (l : loc) : heap * loc :=
  let txt := lower text in
  if any_in emergency_cancel_words txt then
    (set_prompt_reason h l
       (Some "Entendido, cancelo la alerta. Si vuelves a sentirte mal, avisa de inmediato.")
       "emergencia_cancel", l)
  else if any_in emergency_confirm_words txt then
    (set_prompt_reason h l
       (Some "Procedo a avisar a tu contacto de emergencia o servicios de urgencia. Confirmas?")
       "emergencia_confirm", l)
  else
    (set_prompt_reason h l
       (Some "Es una emergencia? Llamo a tu contacto de emergencia o a servicios de urgencia.")
       "emergencia_check", l).

(** ** Repository: reminders

    A row of the [Reminder] table. Its [created_at] / [updated_at] stamps
    are not modelled: table order stands for [created_at], and no property
    below speaks of [updated_at], which every status update refreshes.
    [r_session] is [None] for every row the repository itself creates (the
    table has no session column); the definitions of the first part keep it
    to follow the session scoping that [process] asks for. *)

Record Reminder := mkReminder {
  r_id : nat;
  r_device : string;
  r_session : option string;
  r_title : string;
  r_due : option Z;
  r_tz : option string;
  r_status : string
}.

Definition opt_eqb (a b : option string) : bool :=
  match a, b with
  | Some x, Some y => str_eqb x y
  | None, None => true
  | _, _ => false
  end.

Definition optZ_eqb (a b : option Z) : bool :=
  match a, b with
  | Some x, Some y => Z.eqb x y
  | None, None => true
  | _, _ => false
  end.

Definition window_hours : Z := 24.

(** The [where] clauses of [find_similar_reminder]'s [select]. *)
Definition reminder_matches (device_id title : string) (session_id : option string)
    (r : Reminder) : bool :=
  str_eqb (r_device r) device_id
  && (if truthy session_id then opt_eqb (r_session r) session_id else true)
  && (if negb (str_eqb title "") then str_eqb (r_title r) title else true).

(** [find_similar_reminder]: the [select] with its optional filters,
    newest first, then the due-window scan with the fall-back to the
    newest candidate. The SQL [session_id == s] never holds on a NULL. *)
Definition find_similar_reminder (rems : list Reminder) (device_id : string)
    (title : string) (due_at : option Z) (session_id : option string) : option Reminder :=
  let candidates := rev (filter (reminder_matches device_id title session_id) rems) in
  let fallback := match candidates with [] => None | r :: _ => Some r end in
  match due_at with
  | Some d =>
    match find (fun r => match r_due r with
                         | Some rd => (Z.abs (rd - d) <=? window_hours * 3600)%Z
                         | None => false
                         end) candidates with
    | Some r => Some r
    | None => fallback
    end
  | None => fallback
  end.

Definition update_reminder_status (rems : list Reminder) (rid : nat) (status : string)
    : list Reminder :=
  map (fun r => if Nat.eqb (r_id r) rid
                then mkReminder (r_id r) (r_device r) (r_session r) (r_title r) (r_due r)
                                (r_tz r) status
                else r) rems.

(** A primary key no row has yet (stands for [uuid4]). *)
Definition fresh_reminder_id (rems : list Reminder) : nat := S (list_max (map r_id rems)).

(** [create_reminder] *)
Definition create_reminder (rems : list Reminder) (device_id : string)
    (session_id : option string) (title : string) (due_at : option Z)
    (tz : option string) (status : string) : list Reminder * nat :=
  (app rems [mkReminder (fresh_reminder_id rems) device_id session_id title due_at tz status],
   fresh_reminder_id rems).

(** [cleanup_reminder_duplicates]: no session filter; exact [due_at]. *)
Definition cleanup_reminder_duplicates (rems : list Reminder) (device_id : string)
    (title : string) (due_at : option Z) (keep_id : nat) : list Reminder :=
  match due_at with
  | None => rems
  | Some d =>
    if str_eqb title "" then rems else
    map (fun r => if str_eqb (r_device r) device_id && str_eqb (r_title r) title
                     && optZ_eqb (r_due r) (Some d) && negb (Nat.eqb (r_id r) keep_id)
                  then mkReminder (r_id r) (r_device r) (r_session r) (r_title r) (r_due r)
                                  (r_tz r) "cancelled"
                  else r) rems
  end.

(** One iteration of the [for rem in reminders] loop of [process]. *)
Definition upsert_reminder (rems : list Reminder) (device_id : string)
    (session_id : option string) (title : string) (due_at : option Z)
    (tz : option string) (target_status : string) : list Reminder * nat :=
  let '(rems1, keep_id) :=
    match find_similar_reminder rems device_id title due_at session_id with
    | Some existing => (update_reminder_status rems (r_id existing) target_status, r_id existing)
    | None => create_reminder rems device_id session_id title due_at tz target_status
    end in
  (cleanup_reminder_duplicates rems1 device_id title due_at keep_id, keep_id).

(** ** Repository: emergency events *)

Record EmergencyEvent := mkEvent {
  e_id : nat;
  e_device : string;
  e_session : option string;
  e_status : string;
  e_reason : string;
  e_action : option string;
  e_contact : option string
}.

Definition is_open (e : EmergencyEvent) : bool :=
  negb (mem (e_status e) ["resolved"; "cancelled"]).

Definition get_latest_open_emergency (evs : list EmergencyEvent) (device_id : string)
    (session_id : option string) : option EmergencyEvent :=
  match rev (filter (fun e => str_eqb (e_device e) device_id
                              && (if truthy session_id then opt_eqb (e_session e) session_id
                                  else true)
                              && is_open e) evs) with
  | [] => None
  | e :: _ => Some e
  end.

Definition create_emergency_event (evs : list EmergencyEvent) (device_id : string)
    (session_id : option string) (status reason : string) (action contact : option string)
    : list EmergencyEvent * nat :=
  (app evs [mkEvent (length evs) device_id session_id status reason action contact], length evs).

Definition update_emergency_status (evs : list EmergencyEvent) (eid : nat) (status : string)
    (action : option string) : list EmergencyEvent :=
  map (fun e => if Nat.eqb (e_id e) eid
                then mkEvent (e_id e) (e_device e) (e_session e) status (e_reason e)
                       (if truthy action then action else e_action e) (e_contact e)
                else e) evs.

Record Store := mkStore { reminders : list Reminder; emergencies : list EmergencyEvent }.

(** ** Sub-flow refinement of [process] (lines 455-492)

    [contact] is what [repository.get_device] yields for the device:
    [(contact_name, contact_phone)]. The refinement assigns the fields of
    the object bound to [decision] and returns the emergency action. *)

Definition contact_prompt (name phone : option string) : string :=
  "Emergencia detectada. Llamo a tu contacto de emergencia ("
  ++ (if truthy name then match name with Some n => n | None => "" end else "contacto")
  ++ " al " ++ match phone with Some p => p | None => "None" end ++ ")?".

Definition refine (h : heap) (l : loc) (text : string) (contact : option string * option string)
    : heap * loc * option string :=
  let '(contact_name, contact_phone) := contact in
  let d := deref h l in
  if str_eqb (flow d) "emergencia" then
    let '(h1, action) :=
      if truthy contact_phone then
        (set_prompt_reason h l (Some (contact_prompt contact_name contact_phone))
           "emergencia_contacto", "contact_family")
      else
        (set_prompt_reason h l (Some "Emergencia detectada. Llamo a servicios de emergencia?")
           "emergencia_servicios", "call_services") in
    let '(h2, l2) := _handle_emergency h1 text l in
    (h2, l2, Some action)
  else if str_eqb (flow d) "recordatorio" then
    if _is_cancel text then
      (set_prompt_reason h l (Some "Entendido, cancelo el recordatorio. Te ayudo con algo mas?")
         "recordatorio_cancel", l, None)
    else
      let slots := _reminder_slots text in
      if has_content slots && has_time slots then
        (set_prompt_reason h l (Some "Listo. Confirmo el recordatorio asi? Si no, dime cancelar.")
           "recordatorio_confirm", l, None)
      else if has_content slots && negb (has_time slots) then
        (set_prompt_reason h l (Some "Cuando debo recordartelo? (ej. hoy 5pm, manana 9:00)")
           "recordatorio_pedir_hora", l, None)
      else
        (set_prompt_reason h l (Some "Que debo recordar y cuando? (ej. tomar medicina a las 9am)")
           "recordatorio_pedir_contenido", l, None)
  else (h, l, None).

(** [local_decision = decide_flow_local(...)], the advisory call only when
    the assistant is enabled, then [merge_flow_decisions]: with no
    advisory decision the merge hands back the local object itself, else
    it builds a new object. *)
Definition decide_and_merge (text : string) (intent : Intent) (gate : Gate)
    (enabled : bool) (llm : option FlowDecision) : heap * loc :=
  let '(h, l_local) := alloc [] (decide_flow_local text intent gate) in
  let llm_decision := if enabled then llm else None in
  match llm_decision with
  | None => (h, l_local)
  | Some _ => alloc h (merge_flow_decisions (deref h l_local) llm_decision (i_score intent))
  end.

(** ** Persistence step of [process] (lines 506-585) *)

Definition reminder_status_map (r : string) : string :=
  if str_eqb r "recordatorio_cancel" then "cancelled" else "draft".

(** [target_status] of the reminder branch. *)
Definition reminder_target_status (reason text : string) : string :=
  if _is_confirm text then "confirmed" else reminder_status_map reason.

Record Candidate := mkCandidate { c_title : option string; c_due : option Z; c_tz : option string }.

Fixpoint upsert_all (rems : list Reminder) (device_id : string) (session_id : option string)
    (text : string) (target : string) (cands : list Candidate) : list Reminder * list nat :=
  match cands with
  | [] => (rems, [])
  | rem :: t =>
    let title := if truthy (c_title rem) then match c_title rem with Some x => x | None => "" end
                 else text in
    let '(rems1, keep_id) := upsert_reminder rems device_id session_id title (c_due rem)
                               (c_tz rem) target in
    let '(rems2, ids) := upsert_all rems1 device_id session_id text target t in
    (rems2, keep_id :: ids)
  end.

Definition emergency_status_map (r : string) : string :=
  if str_eqb r "emergencia_cancel" then "cancelled"
  else if str_eqb r "emergencia_confirm" then "escalated"
  else if mem r ["emergencia_check"; "emergencia_contacto"; "emergencia_servicios"] then "confirming"
  else "detected".

(** Emergency branch: update the latest open event of the device (and
    session) in place, or create one. *)
Definition persist_emergency (evs : list EmergencyEvent) (device_id : string)
    (session_id : option string) (reason : string) (action contact_name : option string)
    : list EmergencyEvent * nat :=
  let target_status := emergency_status_map reason in
  match get_latest_open_emergency evs device_id session_id with
  | Some ev => (update_emergency_status evs (e_id ev) target_status action, e_id ev)
  | None => create_emergency_event evs device_id session_id target_status reason action contact_name
  end.

Record TurnResult := mkTurnResult {
  t_reply : string;
  t_decoder : string;
  t_emergency : bool;
  t_flow : string;
  t_next_prompt : option string;
  t_flow_source : string;
  t_flow_reason : string;
  t_reminder_ids : list nat;
  t_event_id : option nat
}.

(** ** ConversationOrchestrator.process

    The classifiers, the reply decoder and the reminder extractor are
    collaborators of the module: Section variables. [generate_reply]
    receives the intent and the text of its context dict (sentiment,
    emotion, entities, history and health data are functions of the turn
    and left implicit). The advisory result [llm] is what
    [FlowAssistant.suggest] returned for the turn, [enabled] is
    [self.assistant.enabled], and [contact] is the device profile's
    [(contact_name, contact_phone)]. *)

Section Process.

Variable predict_intent : string -> Intent.
Variable generate_reply : Intent -> string -> string * string.
Variable extract_reminders : string -> list Candidate.

Record Turn := mkTurn { text : string; device_id : string; session_id : option string }.

Definition gate_emergency_prompt : string :=
  "Emergencia detectada. Llamo a tu contacto de emergencia o a servicios de urgencia?".

(** The [if not gate.get("allow", True)] branch. *)
Definition process_gate (t : Turn) (gate : Gate) (st : Store) : TurnResult * Store :=
  if g_emergency gate then
    let intent := mkIntent (Some "emergencia_medica") 1 in
    let decision := mkFlowDecision "emergencia" (Some gate_emergency_prompt) "gate_emergency" "gate" in
    let '(reply, decoder_source) := generate_reply intent (text t) in
    let '(evs, eid) := create_emergency_event (emergencies st) (device_id t) (session_id t)
                         "detected" (reason decision) None None in
    (mkTurnResult reply decoder_source true (flow decision) (next_prompt decision)
       (source decision) (reason decision) [] (Some eid),
     mkStore (reminders st) evs)
  else
    (mkTurnResult
       "Mensaje bloqueado por seguridad. Si necesitas ayuda urgente, contacta a un servicio de emergencia."
       "gate" (g_emergency gate) "bloqueado" None "gate" "gate_block" [] None, st).

(** The persistence [try] block; [get_latest_reminder] is called with a
    [session_id] keyword it does not accept, so the cancel branch raises
    [TypeError] and the [except] leaves the store unchanged. *)
Definition persist (t : Turn) (d : FlowDecision) (action contact_name : option string)
    (st : Store) : Store * list nat * option nat :=
  if str_eqb (flow d) "recordatorio" then
    let target_status := reminder_target_status (reason d) (text t) in
    let rems := match extract_reminders (text t) with
                | [] => [mkCandidate (Some (text t)) None None]
                | rs => rs
                end in
    if str_eqb target_status "cancelled" then (st, [], None)
    else
      let '(rs, ids) := upsert_all (reminders st) (device_id t) (session_id t) (text t)
                          target_status rems in
      (mkStore rs (emergencies st), ids, None)
  else if str_eqb (flow d) "emergencia" then
    let '(evs, eid) := persist_emergency (emergencies st) (device_id t) (session_id t)
                         (reason d) action contact_name in
    (mkStore (reminders st) evs, [], Some eid)
  else (st, [], None).

(** The main path, after the gate let the text through. Also returns the
    decision heap and the location of the merged decision. *)
Definition process_main (t : Turn) (gate : Gate) (enabled : bool) (llm : option FlowDecision)
    (contact : option string * option string) (st : Store)
    : TurnResult * Store * heap * loc :=
  let intent := predict_intent (text t) in
  let '(h, l) := decide_and_merge (text t) intent gate enabled llm in
  let flow_source := source (deref h l) in
  let '(h1, l1, action) := refine h l (text t) contact in
  let d := deref h1 l1 in
  let emergency_contact_name :=
    if str_eqb (flow (deref h l)) "emergencia" then fst contact else None in
  let '(reply, decoder_source) :=
    if str_eqb (flow d) "emergencia" then ("Protocolo de emergencia activado.", "emergency_protocol")
    else generate_reply intent (text t) in
  let '(st1, rids, eid) := persist t d action emergency_contact_name st in
  (mkTurnResult reply decoder_source (str_eqb (flow d) "emergencia" || g_emergency gate)
     (flow d) (next_prompt d) flow_source (reason d) rids eid, st1, h1, l1).

Definition process (t : Turn) (gate : Gate) (enabled : bool) (llm : option FlowDecision)
    (contact : option string * option string) (st : Store) : TurnResult * Store :=
  if negb (g_allow gate) then process_gate t gate st
  else let '(r, st1, _, _) := process_main t gate enabled llm contact st in (r, st1).

End Process.

(** ** Reminder scope predicates used by the properties *)

(** Scope of a reminder for a device and (when truthy) a session. *)
Definition in_scope (device_id : string) (session_id : option string) (r : Reminder) : bool :=
  str_eqb (r_device r) device_id
  && (if truthy session_id then opt_eqb (r_session r) session_id else true).

(** Non-cancelled reminders of the scope with a given title. *)
Definition active_titled (device_id : string) (session_id : option string) (title : string)
    (rems : list Reminder) : list Reminder :=
  filter (fun r => in_scope device_id session_id r && str_eqb (r_title r) title
                   && negb (str_eqb (r_status r) "cancelled")) rems.

Definition same_key (r r' : Reminder) : Prop :=
  r_id r' = r_id r /\ r_device r' = r_device r /\ r_session r' = r_session r /\
  r_title r' = r_title r /\ r_due r' = r_due r.

Definition fresh_for (device_id : string) (session_id : option string) (title : string)
    (rems : list Reminder) : Prop :=
  forall r, In r rems -> in_scope device_id session_id r = true -> r_title r <> title.

(** ** Python call outcomes of the repository layer

    The persistence helpers above follow the intent of the calls made by
    [process]; the definitions below follow what the calls do against the
    table models of [db_models.py]: [Reminder] and [EmergencyEvent]
    declare no [session_id] column, so a query that filters on it raises
    [AttributeError] while it is built, and a call with a keyword the
    callee does not declare raises [TypeError] before its body runs. *)

Inductive py_result (A : Type) : Type :=
| PyOk (a : A)
| PyExc (exc : string).
Arguments PyOk {A} a.
Arguments PyExc {A} exc.

(** Columns of the [Reminder] and [EmergencyEvent] table models. *)
Definition REMINDER_COLUMNS : list string :=
  ["id"; "device_id"; "title"; "due_at"; "timezone"; "status"; "created_at"; "updated_at"].
Definition EMERGENCY_COLUMNS : list string :=
  ["id"; "device_id"; "status"; "contact_name"; "reason"; "action"; "created_at"; "resolved_at"].

(** [db_models.M.c]: attribute lookup of a column on a table model class. *)
Definition column (cols : list string) (c : string) : py_result unit :=
  if mem c cols then PyOk tt else PyExc "AttributeError".

(** Binding the keyword arguments [kws] of a call to a function whose
    keyword parameters are [params], [required] of them without default. *)
Definition bind_kwargs (params required kws : list string) : py_result unit :=
  if forallb (fun k => mem k params) kws && forallb (fun k => mem k kws) required
  then PyOk tt else PyExc "TypeError".

Definition REMINDER_STATUSES : list string := ["draft"; "confirmed"; "cancelled"; "done"].
Definition EMERGENCY_STATUSES : list string :=
  ["detected"; "confirming"; "escalated"; "cancelled"; "resolved"].

(** [repository.create_reminder]: keyword-only parameters [device_id],
    [title], [due_at], [timezone] and [status] (default "draft"); the row
    has no session. *)
Definition create_reminder_py (rems : list Reminder) (kws : list string) (device_id title : string)
    (due_at : option Z) (tz : option string) (status : string) : py_result (list Reminder * nat) :=
  match bind_kwargs ["device_id"; "title"; "due_at"; "timezone"; "status"]
          ["device_id"; "title"; "due_at"; "timezone"] kws with
  | PyExc e => PyExc e
  | PyOk _ =>
    if mem status REMINDER_STATUSES
    then PyOk (create_reminder rems device_id None title due_at tz status)
    else PyExc "ValueError"
  end.

(** The keywords of the [create_reminder] call in [process]. *)
Definition process_create_kwargs : list string :=
  ["device_id"; "session_id"; "title"; "due_at"; "timezone"; "status"; "notes"; "meta";
   "source_message_id"].

(** [repository.update_reminder_status]: the status is checked first, a
    missing row gives [False]. *)
Definition update_reminder_status_py (rems : list Reminder) (rid : nat) (status : string)
    : py_result (list Reminder * bool) :=
  if negb (mem status REMINDER_STATUSES) then PyExc "ValueError"
  else if existsb (fun r => Nat.eqb (r_id r) rid) rems
  then PyOk (update_reminder_status rems rid status, true)
  else PyOk (rems, false).

(** [repository.find_similar_reminder]: the session filter is only built
    for a truthy [session_id]. *)
Definition find_similar_reminder_py (rems : list Reminder) (device_id title : string)
    (due_at : option Z) (session_id : option string) : py_result (option Reminder) :=
  if truthy session_id then
    match column REMINDER_COLUMNS "session_id" with
    | PyOk _ => PyOk (find_similar_reminder rems device_id title due_at session_id)
    | PyExc e => PyExc e
    end
  else PyOk (find_similar_reminder rems device_id title due_at session_id).

(** [repository.get_latest_reminder(device_id)], called with the keywords
    [kws] besides the positional [device_id]. *)
Definition get_latest_reminder_py (rems : list Reminder) (kws : list string) (device_id : string)
    : py_result (option Reminder) :=
  match bind_kwargs ["device_id"] [] kws with
  | PyExc e => PyExc e
  | PyOk _ =>
    PyOk (match rev (filter (fun r => str_eqb (r_device r) device_id) rems) with
          | [] => None
          | r :: _ => Some r
          end)
  end.

(** [repository.get_latest_open_emergency]. *)
Definition get_latest_open_emergency_py (evs : list EmergencyEvent) (device_id : string)
    (session_id : option string) : py_result (option EmergencyEvent) :=
  if truthy session_id then
    match column EMERGENCY_COLUMNS "session_id" with
    | PyOk _ => PyOk (get_latest_open_emergency evs device_id session_id)
    | PyExc e => PyExc e
    end
  else PyOk (get_latest_open_emergency evs device_id session_id).

(** [repository.update_emergency_status] ([resolved_at] is not modelled). *)
Definition update_emergency_status_py (evs : list EmergencyEvent) (eid : nat) (status : string)
    (action : option string) : py_result (list EmergencyEvent * bool) :=
  if negb (mem status EMERGENCY_STATUSES) then PyExc "ValueError"
  else if existsb (fun e => Nat.eqb (e_id e) eid) evs
  then PyOk (update_emergency_status evs eid status action, true)
  else PyOk (evs, false).

(** [repository.create_emergency_event]: every keyword of its callers is a
    parameter; [session_id], [meta] and [source_message_id] are no fields
    of the table model, so the row keeps no session. *)
Definition create_emergency_event_py (evs : list EmergencyEvent) (device_id : string)
    (status reason : string) (action contact : option string)
    : py_result (list EmergencyEvent * nat) :=
  if mem status EMERGENCY_STATUSES
  then PyOk (create_emergency_event evs device_id None status reason action contact)
  else PyExc "ValueError".

(** The loop body of the reminder branch of [process], call by call. *)
Definition upsert_reminder_py (rems : list Reminder) (device_id : string)
    (session_id : option string) (title : string) (due_at : option Z)
    (tz : option string) (target_status : string) : py_result (list Reminder * nat) :=
  match find_similar_reminder_py rems device_id title due_at session_id with
  | PyExc e => PyExc e
  | PyOk (Some existing) =>
    match update_reminder_status_py rems (r_id existing) target_status with
    | PyExc e => PyExc e
    | PyOk (rems1, _) =>
      PyOk (cleanup_reminder_duplicates rems1 device_id title due_at (r_id existing), r_id existing)
    end
  | PyOk None =>
    match create_reminder_py rems process_create_kwargs device_id title due_at tz target_status with
    | PyExc e => PyExc e
    | PyOk (rems1, keep_id) =>
      PyOk (cleanup_reminder_duplicates rems1 device_id title due_at keep_id, keep_id)
    end
  end.

(** The [for rem in reminders] loop: each repository call commits on its
    own, so an exception keeps the rows written so far and ends the loop;
    the ids appended so far are kept. *)
Fixpoint upsert_all_py (rems : list Reminder) (device_id : string) (session_id : option string)
    (text : string) (target : string) (cands : list Candidate)
    : list Reminder * list nat * option string :=
  match cands with
  | [] => (rems, [], None)
  | rem :: t =>
    let title := if truthy (c_title rem) then match c_title rem with Some x => x | None => "" end
                 else text in
    match upsert_reminder_py rems device_id session_id title (c_due rem) (c_tz rem) target with
    | PyExc e => (rems, [], Some e)
    | PyOk (rems1, keep_id) =>
      let '(rems2, ids, exc) := upsert_all_py rems1 device_id session_id text target t in
      (rems2, keep_id :: ids, exc)
    end
  end.

Section PersistPy.

Variable extract_reminders : string -> list Candidate.

(** The persistence [try] block of [process] (lines 506-585), call by
    call; the [except] keeps what was committed before the exception. *)
Definition persist_py (t : Turn) (d : FlowDecision) (action contact_name : option string)
    (st : Store) : Store * list nat * option nat :=
  if str_eqb (flow d) "recordatorio" then
    let target_status := reminder_target_status (reason d) (text t) in
    let rems := match extract_reminders (text t) with
                | [] => [mkCandidate (Some (text t)) None None]
                | rs => rs
                end in
    if str_eqb target_status "cancelled" then
      match get_latest_reminder_py (reminders st) ["session_id"] (device_id t) with
      | PyOk (Some existing) =>
        match update_reminder_status_py (reminders st) (r_id existing) target_status with
        | PyOk (rs, _) => (mkStore rs (emergencies st), [r_id existing], None)
        | PyExc _ => (st, [], None)
        end
      | _ => (st, [], None)
      end
    else
      let '(rs, ids, _) := upsert_all_py (reminders st) (device_id t) (session_id t) (text t)
                             target_status rems in
      (mkStore rs (emergencies st), ids, None)
  else if str_eqb (flow d) "emergencia" then
    let target_status := emergency_status_map (reason d) in
    match get_latest_open_emergency_py (emergencies st) (device_id t) (session_id t) with
    | PyExc _ => (st, [], None)
    | PyOk (Some ev) =>
      match update_emergency_status_py (emergencies st) (e_id ev) target_status action with
      | PyOk (evs, _) => (mkStore (reminders st) evs, [], Some (e_id ev))
      | PyExc _ => (st, [], None)
      end
    | PyOk None =>
      match create_emergency_event_py (emergencies st) (device_id t) target_status (reason d)
              action contact_name with
      | PyOk (evs, eid) => (mkStore (reminders st) evs, [], Some eid)
      | PyExc _ => (st, [], None)
      end
    end
  else (st, [], None).

End PersistPy.

(** ** api/chat.py: request checks

    [chat] answers 400 when the text, the device id or the session id is
    blank, and hands [process] the stripped ids; [normalize] is the text
    normalisation (NFD, combining marks dropped, whitespace collapsed). *)

Inductive http_result (A : Type) : Type :=
| HttpOk (a : A)
| HttpError (code : nat) (detail : string).
Arguments HttpOk {A} a.
Arguments HttpError {A} code detail.

Definition chat_args (normalize : string -> string) (txt device session : string)
    : http_result Turn :=
  if str_eqb (strip txt) "" then HttpError 400 "Empty text is not allowed"
  else if str_eqb (strip device) "" then HttpError 400 "device_id is required and cannot be empty"
  else if str_eqb (strip session) "" then HttpError 400 "session_id is required and cannot be empty"
  else HttpOk (mkTurn (normalize (strip txt)) (strip device) (Some (strip session))).

(** ** Listing endpoints *)

(** SQLite [LIMIT n]: a negative limit means no limit. *)
Definition sql_limit {A} (n : Z) (xs : list A) : list A :=
  if (n <? 0)%Z then xs else firstn (Z.to_nat n) xs.

(** [repository.list_reminders]: [session_id] is accepted and unused. *)
Definition list_reminders_repo (rems : list Reminder) (device_id : string)
    (status : option string) (limit : Z) (session_id : option string) : list Reminder :=
  sql_limit limit
    (rev (filter (fun r => str_eqb (r_device r) device_id
                           && (if truthy status then opt_eqb (Some (r_status r)) status else true))
            rems)).

(** [max(1, min(limit, 200))] *)
Definition clamp_limit (limit : Z) : Z := Z.max 1 (Z.min limit 200).

Definition reminder_key (r : Reminder) : string * option Z := (r_title r, r_due r).

Definition key_eqb (a b : string * option Z) : bool :=
  str_eqb (fst a) (fst b) && optZ_eqb (snd a) (snd b).

(** The [seen] loop of [api.reminders.list_reminders]. *)
Fixpoint dedup_reminders (seen : list (string * option Z)) (xs : list Reminder) : list Reminder :=
  match xs with
  | [] => []
  | r :: t =>
    if existsb (key_eqb (reminder_key r)) seen then dedup_reminders seen t
    else r :: dedup_reminders (reminder_key r :: seen) t
  end.

(** [GET /reminders], before the conversion to [ReminderResponse]. *)
Definition list_reminders_api (rems : list Reminder) (device_id : string)
    (status : option string) (limit : Z) (session_id : option string) : list Reminder :=
  dedup_reminders [] (list_reminders_repo rems device_id status (clamp_limit limit) session_id).

(** [repository.list_emergencies]. *)
Definition list_emergencies_py (evs : list EmergencyEvent) (device_id : string)
    (status : option string) (limit : Z) (session_id : option string)
    : py_result (list EmergencyEvent) :=
  let rows := filter (fun e => str_eqb (e_device e) device_id
                               && (if truthy status then opt_eqb (Some (e_status e)) status
                                   else true)) evs in
  if truthy session_id then
    match column EMERGENCY_COLUMNS "session_id" with
    | PyOk _ => PyOk (sql_limit limit (rev (filter (fun e => opt_eqb (e_session e) session_id) rows)))
    | PyExc e => PyExc e
    end
  else PyOk (sql_limit limit (rev rows)).

(** [GET /emergencies]: exceptions become a 500. *)
Definition list_emergencies_api (evs : list EmergencyEvent) (device_id : string)
    (status : option string) (limit : Z) (session_id : option string)
    : http_result (list EmergencyEvent) :=
  match list_emergencies_py evs device_id status (clamp_limit limit) session_id with
  | PyOk items => HttpOk items
  | PyExc e => HttpError 500 e
  end.

(** ** Status updates and deletions through the API *)


(** [DELETE /emergencies/{id}] *)
Definition delete_emergency_api (evs : list EmergencyEvent) (eid : nat)
    : http_result string * list EmergencyEvent :=
  match update_emergency_status_py evs eid "cancelled" None with
  | PyOk (es, true) => (HttpOk "cancelled", es)
  | PyOk (es, false) => (HttpError 404 "Emergency event not found", es)
  | PyExc e => (HttpError 500 e, evs)
  end.

(** ** repository.get_active_emergency_for_device *)

Record Device := mkDevice {
  dev_id : string;
  dev_contact_name : option string;
  dev_contact_phone : option string
}.

Definition get_device (devs : list Device) (device_id : string) : option Device :=
  find (fun dv => str_eqb (dev_id dv) device_id) devs.

Record ActiveEmergency := mkActive {
  a_emergency_id : nat;
  a_status : string;
  a_protocol : string;
  a_reason : string;
  a_contact_name : option string;
  a_contact_phone : option string
}.

Definition get_active_emergency_for_device (evs : list EmergencyEvent) (devs : list Device)
    (device_id : string) : option ActiveEmergency :=
  match get_latest_open_emergency evs device_id None with
  | None => None
  | Some em =>
    let device := get_device devs device_id in
    let protocol := if truthy (e_action em) then match e_action em with Some a => a | None => "" end
                    else "escalate" in
    Some (mkActive (e_id em) "emergency" protocol (e_reason em)
            (or_else (e_contact em) (match device with Some dv => dev_contact_name dv | None => None end))
            (match device with Some dv => dev_contact_phone dv | None => None end))
  end.

(** [GET /emergency-status/{device_id}]: the [status] field of the
    response ([ensure_device] runs first and adds no event). *)
Definition emergency_status (evs : list EmergencyEvent) (devs : list Device) (device_id : string)
    : string :=
  match get_active_emergency_for_device evs devs device_id with
  | Some a => a_status a
  | None => "ok"
  end.

(** ** Predicates used by the further properties *)

(** Every column of a reminder row except its status. *)
Definition row_key (r : Reminder) : nat * string * option string * string * option Z * option string :=
  (r_id r, r_device r, r_session r, r_title r, r_due r, r_tz r).

(** Open events of a device. *)
Definition open_of (device_id : string) (e : EmergencyEvent) : bool :=
  str_eqb (e_device e) device_id && is_open e.

(** The emergency table invariant: distinct ids below the row count, and
    no two open events of the same device. *)
Definition events_wf (evs : list EmergencyEvent) : Prop :=
  NoDup (map e_id evs) /\ (forall e, In e evs -> (e_id e < length evs)%nat) /\
  (forall e1 e2, In e1 evs -> In e2 evs -> is_open e1 = true -> is_open e2 = true ->
     e_device e1 = e_device e2 -> e1 = e2).

(** The due-window test of [find_similar_reminder]. *)
Definition due_within (d : Z) (r : Reminder) : bool :=
  match r_due r with
  | Some rd => (Z.abs (rd - d) <=? window_hours * 3600)%Z
  | None => false
  end.

(** A string holding no newline character. *)
Definition no_newline (s : string) : bool :=
  forallb (fun c => negb (nat_of_ascii c =? 10)%nat) (to_chars s).




(** * Properties *)

(** ** Basic lemmas *)

Lemma str_eqb_eq (a b : string) : str_eqb a b = true <-> a = b.
Proof. unfold str_eqb; destruct (string_dec a b); split; congruence. Qed.

Lemma str_eqb_refl (a : string) : str_eqb a a = true.
Proof. apply str_eqb_eq; reflexivity. Qed.

Lemma str_eqb_neq (a b : string) : str_eqb a b = false <-> a <> b.
Proof. unfold str_eqb; destruct (string_dec a b); split; congruence. Qed.

Lemma merge_none (local : FlowDecision) (s : Q) :
  merge_flow_decisions local None s = local.
Proof. reflexivity. Qed.

Lemma deref_update_other (h : heap) (l l' : loc) f :
  l <> l' -> deref (update_at l f h) l' = deref h l'.
Proof.
  unfold deref. revert l l'.
  induction h as [|x t IH]; intros [|l] [|l'] Hne; simpl; try reflexivity; try congruence.
  apply IH. congruence.
Qed.

Lemma deref_set_same (h : heap) (l : loc) p r :
  (l < length h)%nat ->
  deref (set_prompt_reason h l p r) l =
  mkFlowDecision (flow (deref h l)) p r (source (deref h l)).
Proof.
  unfold deref, set_prompt_reason. revert l.
  induction h as [|x t IH]; intros [|l] Hl; simpl in *; try lia; try reflexivity.
  apply IH. lia.
Qed.

Lemma deref_set_out (h : heap) (l : loc) p r :
  (length h <= l)%nat -> set_prompt_reason h l p r = h.
Proof.
  unfold set_prompt_reason. revert l.
  induction h as [|x t IH]; intros [|l] Hl; simpl in *; try lia; try reflexivity.
  rewrite IH by lia. reflexivity.
Qed.

Lemma set_length (h : heap) l p r : length (set_prompt_reason h l p r) = length h.
Proof.
  unfold set_prompt_reason. revert l.
  induction h as [|x t IH]; intros [|l]; simpl; auto.
Qed.

(** Flow and source of every object survive a field assignment. *)
Lemma set_keeps_flow_source (h : heap) l l' p r :
  flow (deref (set_prompt_reason h l p r) l') = flow (deref h l') /\
  source (deref (set_prompt_reason h l p r) l') = source (deref h l').
Proof.
  destruct (Nat.eq_dec l l') as [<-|Hne].
  - destruct (Nat.lt_ge_cases l (length h)) as [Hl|Hl].
    + rewrite deref_set_same by exact Hl. auto.
    + rewrite deref_set_out by exact Hl. auto.
  - unfold set_prompt_reason. rewrite deref_update_other by exact Hne. auto.
Qed.

Lemma Qltb_iff (x y : Q) : Qltb x y = true <-> (x < y)%Q.
Proof.
  unfold Qltb. rewrite negb_true_iff. split.
  - intro H. apply Qnot_le_lt. intro H'. apply Qle_bool_iff in H'. congruence.
  - intro H. destruct (Qle_bool y x) eqn:E; [|reflexivity].
    apply Qle_bool_iff in E. exfalso. apply (Qlt_not_le x y H E).
Qed.

Lemma handle_emergency_shape (h : heap) text l :
  exists p r, _handle_emergency h text l = (set_prompt_reason h l p r, l).
Proof.
  unfold _handle_emergency.
  destruct (any_in emergency_cancel_words (lower text)); [eauto|].
  destruct (any_in emergency_confirm_words (lower text)); eauto.
Qed.

(** Refinement assigns fields of the object at [l] only, allocates
    nothing and returns [l] itself. *)
Lemma refine_frame (h : heap) (l : loc) text contact :
  let '(h1, l1, _) := refine h l text contact in
  l1 = l /\ length h1 = length h /\
  (forall l', flow (deref h1 l') = flow (deref h l') /\ source (deref h1 l') = source (deref h l'))
  /\ (forall l', l' <> l -> deref h1 l' = deref h l').
Proof.
  destruct contact as [cn cp]. unfold refine.
  destruct (str_eqb (flow (deref h l)) "emergencia").
  - set (h1 := if truthy cp then _ else _).
    assert (Hh1 : exists p r a, h1 = (set_prompt_reason h l p r, a))
      by (unfold h1; destruct (truthy cp); eauto).
    destruct Hh1 as (p & r & a & ->).
    destruct (handle_emergency_shape (set_prompt_reason h l p r) text l) as (p2 & r2 & ->).
    split; [reflexivity|]. split; [rewrite !set_length; reflexivity|]. split.
    + intro l'. rewrite (proj1 (set_keeps_flow_source _ _ _ _ _)).
      rewrite (proj2 (set_keeps_flow_source _ _ _ _ _)).
      apply set_keeps_flow_source.
    + intros l' Hne. unfold set_prompt_reason. rewrite !deref_update_other by congruence.
      reflexivity.
  - assert (Hgen : forall p r, let '(h1, l1, _) := (set_prompt_reason h l p r, l, @None string) in
              l1 = l /\ length h1 = length h /\
              (forall l', flow (deref h1 l') = flow (deref h l') /\
                          source (deref h1 l') = source (deref h l'))
              /\ (forall l', l' <> l -> deref h1 l' = deref h l')).
    { intros p r. split; [reflexivity|]. split; [apply set_length|]. split.
      - intro l'. apply set_keeps_flow_source.
      - intros l' Hne. unfold set_prompt_reason. apply deref_update_other. congruence. }
    destruct (str_eqb (flow (deref h l)) "recordatorio");
      [| split; [reflexivity|]; split; [reflexivity|]; split; auto].
    destruct (_is_cancel text); [apply Hgen|].
    destruct (has_content (_reminder_slots text)), (has_time (_reminder_slots text));
      simpl; apply Hgen.
Qed.

Lemma deref_alloc_last (h : heap) d : deref (app h [d]) (length h) = d.
Proof. unfold deref. rewrite app_nth2 by lia. rewrite Nat.sub_diag. reflexivity. Qed.

(** The merged decision of a turn whose gate flags an emergency has the
    emergency flow. *)
Lemma decide_and_merge_emergency text intent gate enabled llm :
  g_emergency gate = true ->
  let '(h, l) := decide_and_merge text intent gate enabled llm in
  flow (deref h l) = "emergencia".
Proof.
  intro Hg. unfold decide_and_merge, alloc. simpl.
  assert (Hloc : flow (decide_flow_local text intent gate) = "emergencia")
    by (unfold decide_flow_local; rewrite Hg; reflexivity).
  destruct (if enabled then llm else None) as [d|] eqn:E.
  - change [decide_flow_local text intent gate] with (app [] [decide_flow_local text intent gate]).
    rewrite deref_alloc_last.
    simpl. unfold deref at 1. simpl.
    set (loc0 := decide_flow_local text intent gate) in *.
    unfold merge_flow_decisions. rewrite Hloc.
    destruct (str_eqb "emergencia" (flow d)) eqn:E1; simpl.
    + apply str_eqb_eq in E1. reflexivity.
    + reflexivity.
  - exact Hloc.
Qed.

(** ** Claims *)

(** C1: for every turn whose Safety Gate verdict has [emergency = true],
    the final flow of [process] is "emergencia", whatever the intent
    classifier, the advisory decision (or its absence), the device contact
    and the store: through the gate short-circuit when the gate denies the
    text, through the local policy and the merge otherwise. *)
Theorem process_gate_emergency_flow
    (predict_intent : string -> Intent) (generate_reply : Intent -> string -> string * string)
    (extract_reminders : string -> list Candidate)
    (t : Turn) (gate : Gate) (enabled : bool) (llm : option FlowDecision)
    (contact : option string * option string) (st : Store)
    (Hg : g_emergency gate = true) :
  t_flow (fst (process predict_intent generate_reply extract_reminders
                 t gate enabled llm contact st)) = "emergencia".
Proof.
  unfold process. destruct (g_allow gate); simpl.
  - unfold process_main.
    pose proof (decide_and_merge_emergency (text t) (predict_intent (text t)) gate enabled llm Hg)
      as Hm.
    destruct (decide_and_merge (text t) (predict_intent (text t)) gate enabled llm) as [h l].
    pose proof (refine_frame h l (text t) contact) as Hr.
    destruct (refine h l (text t) contact) as [[h1 l1] a].
    destruct Hr as (-> & _ & Hf & _).
    destruct (if str_eqb (flow (deref h1 l)) "emergencia" then _ else _) as [reply ds].
    destruct (persist _ _ _ _ _ _) as [[st1 rids] eid]. simpl.
    rewrite (proj1 (Hf l)). exact Hm.
  - unfold process_gate. rewrite Hg.
    destruct (generate_reply _ _) as [reply ds].
    destruct (create_emergency_event _ _ _ _ _ _ _) as [evs eid]. reflexivity.
Qed.

Lemma process_gate_emergency_flow_witness :
  g_emergency (mkGate true true) = true /\
  t_flow (fst (process (fun _ => mkIntent (Some "saludo") (9 # 10)) (fun _ _ => ("hola", "mock"))
                 (fun _ => []) (mkTurn "me cai" "dev1" (Some "s1")) (mkGate true true) true
                 (Some (FD "acompanamiento_social" None "llm")) (None, None)
                 (mkStore [] []))) = "emergencia".
Proof.
  split; [reflexivity|].
  apply (process_gate_emergency_flow (fun _ => mkIntent (Some "saludo") (9 # 10))
           (fun _ _ => ("hola", "mock")) (fun _ => []) (mkTurn "me cai" "dev1" (Some "s1"))
           (mkGate true true) true (Some (FD "acompanamiento_social" None "llm")) (None, None)
           (mkStore [] [])).
  reflexivity.
Defined.

(** C5: merging with an absent advisory decision is the identity on the
    local decision (the very same object: flow, next_prompt, reason and
    source unchanged); in [process] the merged object is then the local
    decision object itself. *)
Theorem merge_absent_identity (local : FlowDecision) (intent_score : Q)
    (text : string) (intent : Intent) (gate : Gate) (enabled : bool) :
  let m := merge_flow_decisions local None intent_score in
  flow m = flow local /\ next_prompt m = next_prompt local /\ reason m = reason local /\
  m = local /\
  decide_and_merge text intent gate enabled None = alloc [] (decide_flow_local text intent gate).
Proof.
  simpl. repeat split.
  unfold decide_and_merge. destruct enabled; reflexivity.
Qed.

(** C6: when the local and advisory decisions have the same flow, the
    merge keeps that flow and the local prompt, and its source is
    "hybrid+validated", the code's name of the spec's [merged_consensus]. *)
Theorem merge_consensus (local llm : FlowDecision) (intent_score : Q)
    (Hagree : flow local = flow llm) :
  let m := merge_flow_decisions local (Some llm) intent_score in
  flow m = flow local /\ flow m = flow llm /\ next_prompt m = next_prompt local /\
  source m = "hybrid+validated" /\ spec_source (source m) = Some merged_consensus.
Proof.
  simpl. rewrite Hagree, str_eqb_refl. simpl. repeat split.
Qed.

Lemma merge_consensus_witness :
  let local := FD "consulta_informacion" (Some "a") "intent_consulta" in
  let llm := mkFlowDecision "consulta_informacion" (Some "b") "llm_validated (corrected=False)" "llm" in
  flow local = flow llm /\
  (let m := merge_flow_decisions local (Some llm) (9 # 10) in
   flow m = flow local /\ flow m = flow llm /\ next_prompt m = next_prompt local /\
   source m = "hybrid+validated" /\ spec_source (source m) = Some merged_consensus).
Proof.
  intros local llm. split; [reflexivity|].
  exact (merge_consensus local llm (9 # 10) eq_refl).
Defined.

(** C7: [decide_flow_local] is a total function applying its rules in
    order. When no emergency rule fires, it yields "recordatorio" exactly
    when the label is "recordatorio" with score >= 0.6, or a reminder
    keyword occurs and the score is < 0.7; so a keyword with a confident
    (>= 0.7) non-reminder label does not yield the reminder flow; and when
    no rule matches it yields the companionship flow with the fallback
    reason. *)
Theorem decide_flow_local_rules (text : string) (intent : Intent) (gate : Gate)
    (Hgate : g_emergency gate = false)
    (Hlabel : mem (intent_label intent) EMERGENCY_LABELS = false) :
  let d := decide_flow_local text intent gate in
  let label := intent_label intent in
  let score := i_score intent in
  (flow d = "recordatorio" <->
     (label = "recordatorio" /\ (6 # 10 <= score)%Q)
     \/ (_keyword_recordatorio text = true /\ (score < 7 # 10)%Q))
  /\ (_keyword_recordatorio text = true -> (7 # 10 <= score)%Q -> label <> "recordatorio" ->
      flow d <> "recordatorio")
  /\ (~ (label = "recordatorio" /\ (6 # 10 <= score)%Q) ->
      ~ (_keyword_recordatorio text = true /\ (score < 7 # 10)%Q) ->
      mem label CONSULTA_LABELS = false -> mem label ACOMP_LABELS = false ->
      d = FD "acompanamiento_social" (Some "Estoy aqui para ayudarte. Como puedo apoyarte?")
             "fallback_acompanamiento").
Proof.
  cbv zeta. unfold decide_flow_local. rewrite Hgate, Hlabel. cbn [orb].
  set (label := intent_label intent). set (score := i_score intent).
  set (kw := _keyword_recordatorio text).
  assert (B2 : str_eqb label "recordatorio" && Qle_bool (6 # 10) score = true
               <-> label = "recordatorio" /\ (6 # 10 <= score)%Q).
  { rewrite andb_true_iff, str_eqb_eq, Qle_bool_iff. reflexivity. }
  assert (B3 : kw && Qltb score (7 # 10) = true <-> kw = true /\ (score < 7 # 10)%Q).
  { rewrite andb_true_iff, Qltb_iff. reflexivity. }
  destruct (str_eqb label "recordatorio" && Qle_bool (6 # 10) score) eqn:E2.
  - simpl. split; [tauto|]. split.
    + intros _ H7 Hne. exfalso. apply Hne. apply B2. reflexivity.
    + intros Hn. exfalso. apply Hn. apply B2. reflexivity.
  - assert (N2 : ~ (label = "recordatorio" /\ (6 # 10 <= score)%Q))
      by (intro H; apply B2 in H; discriminate).
    destruct (kw && Qltb score (7 # 10)) eqn:E3.
    + simpl. split; [tauto|]. split.
      * intros _ H7 _. exfalso. destruct (proj1 B3 eq_refl) as [_ H]. apply (Qlt_not_le _ _ H H7).
      * intros _ Hn. exfalso. apply Hn. apply B3. reflexivity.
    + assert (N3 : ~ (kw = true /\ (score < 7 # 10)%Q))
        by (intro H; apply B3 in H; discriminate).
      split; [|split].
      * destruct (mem label CONSULTA_LABELS); [|destruct (mem label ACOMP_LABELS)];
          simpl; split; intro H; try discriminate; tauto.
      * intros _ _ _.
        destruct (mem label CONSULTA_LABELS); [|destruct (mem label ACOMP_LABELS)];
          simpl; discriminate.
      * intros _ _ HC HA. rewrite HC, HA. reflexivity.
Qed.

Lemma decide_flow_local_rules_witness :
  let intent := mkIntent (Some "saludo") (8 # 10) in
  let gate := mkGate true false in
  g_emergency gate = false /\ mem (intent_label intent) EMERGENCY_LABELS = false /\
  flow (decide_flow_local "pon una alarma" intent gate) <> "recordatorio".
Proof.
  intros intent gate. split; [reflexivity|]. split; [reflexivity|].
  destruct (decide_flow_local_rules "pon una alarma" intent gate eq_refl eq_refl) as [_ [H _]].
  apply H.
  - reflexivity.
  - unfold Qle. simpl. lia.
  - discriminate.
Defined.

(** C8 (counterexample): on a reminder turn that the gate lets through
    ([allow] true, [emergency] false) and that the advisory decision
    validates, the merge builds the object at location 1; refinement hands
    back that very object with its [next_prompt] and [reason] overwritten:
    "intent_recordatorio+llm_validated" after the merge,
    "recordatorio_confirm" after refinement. *)
Lemma refine_mutates_merged_decision :
  let txt := "recuerdame tomar la pastilla a las 9" in
  let '(h, l) := decide_and_merge txt (mkIntent (Some "recordatorio") (9 # 10))
                   (mkGate true false) true
                   (Some (mkFlowDecision "recordatorio" (Some "Vale") "llm_flow" "llm")) in
  let '(h1, l1, _) := refine h l txt (None, None) in
  l1 = l /\ l = 1%nat /\
  reason (deref h l) = "intent_recordatorio+llm_validated" /\
  reason (deref h1 l1) = "recordatorio_confirm" /\
  next_prompt (deref h1 l1) <> next_prompt (deref h l).
Proof. vm_compute. repeat split. discriminate. Qed.

(** C8 (amended): refinement builds no new [FlowDecision]: it returns the
    merged decision object itself. For the emergency flow it assigns that
    object a prompt and one of the reasons "emergencia_cancel",
    "emergencia_confirm", "emergencia_check"; for the reminder flow a
    prompt and one of "recordatorio_cancel", "recordatorio_confirm",
    "recordatorio_pedir_hora", "recordatorio_pedir_contenido"; for any
    other flow it changes nothing. The object's [flow] and [source], and
    every other decision object, are unchanged. *)
Theorem refine_in_place (h : heap) (l : loc) (text : string)
    (contact : option string * option string) (Hl : (l < length h)%nat) :
  let '(h1, l1, _) := refine h l text contact in
  l1 = l /\ length h1 = length h /\
  flow (deref h1 l) = flow (deref h l) /\ source (deref h1 l) = source (deref h l) /\
  (forall l', l' <> l -> deref h1 l' = deref h l') /\
  (flow (deref h l) = "emergencia" ->
   next_prompt (deref h1 l) <> None /\
   In (reason (deref h1 l)) ["emergencia_cancel"; "emergencia_confirm"; "emergencia_check"]) /\
  (flow (deref h l) = "recordatorio" ->
   next_prompt (deref h1 l) <> None /\
   In (reason (deref h1 l)) ["recordatorio_cancel"; "recordatorio_confirm";
                             "recordatorio_pedir_hora"; "recordatorio_pedir_contenido"]) /\
  (flow (deref h l) <> "emergencia" -> flow (deref h l) <> "recordatorio" -> h1 = h).
Proof.
  pose proof (refine_frame h l text contact) as Hr.
  destruct (refine h l text contact) as [[h1 l1] a] eqn:Eref.
  destruct Hr as (-> & Hlen & Hfs & Hoth).
  split; [reflexivity|]. split; [exact Hlen|].
  destruct (Hfs l) as [Hf Hs]. split; [exact Hf|]. split; [exact Hs|]. split; [exact Hoth|].
  assert (Hgen : forall p r, (l < length (set_prompt_reason h l p r))%nat)
    by (intros; rewrite set_length; exact Hl).
  destruct contact as [cn cp]. unfold refine in Eref.
  split; [|split].
  - intro He. rewrite He, str_eqb_refl in Eref.
    destruct (truthy cp); unfold _handle_emergency in Eref;
      destruct (any_in emergency_cancel_words (lower text));
      try destruct (any_in emergency_confirm_words (lower text));
      injection Eref as <- _; rewrite deref_set_same by apply Hgen; cbn [reason next_prompt];
      (split; [discriminate|cbv; tauto]).
  - intro Hrec. rewrite Hrec in Eref.
    destruct (str_eqb "recordatorio" "emergencia") eqn:E0; [discriminate|].
    rewrite str_eqb_refl in Eref.
    destruct (_is_cancel text);
      [|destruct (has_content (_reminder_slots text)), (has_time (_reminder_slots text))];
      cbn [andb negb] in Eref; injection Eref as <- _;
      rewrite deref_set_same by exact Hl; cbn [reason next_prompt];
      (split; [discriminate|cbv; tauto]).
  - intros He Hrec.
    destruct (str_eqb (flow (deref h l)) "emergencia") eqn:E1;
      [apply str_eqb_eq in E1; contradiction|].
    destruct (str_eqb (flow (deref h l)) "recordatorio") eqn:E2;
      [apply str_eqb_eq in E2; contradiction|].
    injection Eref as <- _. reflexivity.
Qed.

Lemma refine_in_place_witness :
  let h := [FD "recordatorio" (Some "Entendido. Que debo recordar y a que hora?")
              "intent_recordatorio"] in
  (0 < length h)%nat /\
  (let '(h1, l1, _) := refine h 0%nat "recuerdame tomar la pastilla" (None, None) in
   l1 = 0%nat /\ flow (deref h1 0%nat) = "recordatorio").
Proof.
  intros h.
  assert (H0 : (0 < length h)%nat) by (simpl; lia).
  split; [exact H0|].
  pose proof (refine_in_place h 0%nat "recuerdame tomar la pastilla" (None, None) H0) as R.
  destruct (refine h 0%nat "recuerdame tomar la pastilla" (None, None)) as [[h1 l1] a].
  destruct R as (R1 & _ & R2 & _). split; [exact R1|]. rewrite R2. reflexivity.
Defined.

(** C9: [suggest] never fails: it returns [None] or a decision whose flow
    is in [ALLOWED_FLOWS] (tagged "llm"); a raised call (timeout,
    transport error), an undecodable reply, a reply that is not a JSON
    object and a flow outside [ALLOWED_FLOWS] all give [None]; and a
    [None] advisory result leaves the turn with the local decision
    object alone. *)
Theorem suggest_absent_or_allowed (json_loads : string -> option json) (py_repr : json -> string)
    (enabled : bool) (call : call_result) :
  let r := suggest json_loads py_repr enabled call in
  let content c := strip_fences (strip (match c with Some s => s | None => "" end)) in
  (r = None \/ exists d, r = Some d /\ mem (flow d) ALLOWED_FLOWS = true /\ source d = "llm") /\
  (forall e, call = Raised e -> r = None) /\
  (forall c, call = Replied c -> json_loads (content c) = None -> r = None) /\
  (forall c data, call = Replied c -> json_loads (content c) = Some data ->
     json_get data "flow" (JStr "") = None -> r = None) /\
  (forall c data fv, call = Replied c -> json_loads (content c) = Some data ->
     json_get data "flow" (JStr "") = Some fv ->
     mem (lower (strip (py_str py_repr fv))) ALLOWED_FLOWS = false -> r = None) /\
  (forall text intent gate,
     decide_and_merge text intent gate enabled None = alloc [] (decide_flow_local text intent gate)).
Proof.
  cbv zeta. unfold suggest.
  split; [|split; [|split; [|split; [|split]]]].
  - destruct enabled; cbn [negb]; [|left; reflexivity].
    destruct call as [c|e]; [|left; reflexivity].
    destruct (json_loads _) as [data|]; [|left; reflexivity].
    destruct (json_get data "flow" (JStr "")) as [fv|]; [|left; reflexivity].
    destruct (mem (lower (strip (py_str py_repr fv))) ALLOWED_FLOWS) eqn:Em;
      cbn [negb]; [|left; reflexivity].
    destruct (json_get data "next_prompt" JNull), (json_get data "corrected" (JBool false));
      try (left; reflexivity).
    right. eexists. split; [reflexivity|]. split; [exact Em|reflexivity].
  - intros e ->. destruct enabled; reflexivity.
  - intros c -> Hj. destruct enabled; simpl; [rewrite Hj|]; reflexivity.
  - intros c data -> Hj Hg. destruct enabled; simpl; [rewrite Hj, Hg|]; reflexivity.
  - intros c data fv -> Hj Hg Hm. destruct enabled; cbn [negb]; [rewrite Hj, Hg, Hm|]; reflexivity.
  - intros text intent gate. unfold decide_and_merge. destruct enabled; reflexivity.
Qed.

(** The main path never calls [generate_reply] on an emergency turn. *)
Lemma main_emergency_reply_fixed predict_intent generate_reply extract_reminders t gate enabled
    llm contact st :
  let '(r, _, _, _) := process_main predict_intent generate_reply extract_reminders t gate enabled
                         llm contact st in
  t_flow r = "emergencia" ->
  t_reply r = "Protocolo de emergencia activado." /\ t_decoder r = "emergency_protocol".
Proof.
  unfold process_main.
  destruct (decide_and_merge _ _ _ _ _) as [h l].
  destruct (refine h l (text t) contact) as [[h1 l1] a].
  destruct (str_eqb (flow (deref h1 l1)) "emergencia") eqn:E.
  - destruct (persist _ _ _ _ _ _) as [[st1 rids] eid]. simpl. auto.
  - destruct (generate_reply _ _) as [reply ds].
    destruct (persist _ _ _ _ _ _) as [[st1 rids] eid]. simpl.
    intro Hf. rewrite Hf in E. discriminate.
Qed.

(** The main path looks the open event up first: it updates it in place
    when there is one and creates an event only when there is none. *)
Lemma main_path_reuses_open_event evs device_id session_id rsn action contact_name :
  match get_latest_open_emergency evs device_id session_id with
  | Some ev =>
    persist_emergency evs device_id session_id rsn action contact_name
    = (update_emergency_status evs (e_id ev) (emergency_status_map rsn) action, e_id ev)
    /\ length (fst (persist_emergency evs device_id session_id rsn action contact_name))
       = length evs
  | None =>
    persist_emergency evs device_id session_id rsn action contact_name
    = create_emergency_event evs device_id session_id (emergency_status_map rsn) rsn action
        contact_name
  end.
Proof.
  unfold persist_emergency.
  destruct (get_latest_open_emergency evs device_id session_id) as [ev|]; [|reflexivity].
  split; [reflexivity|]. simpl. unfold update_emergency_status. apply length_map.
Qed.

(** C4 (code bug): on the gate short-circuit path ([allow = false],
    [emergency = true]) the turn's flow is "emergencia" but its reply and
    decoder tag are those of [generate_reply]. *)
Theorem gate_emergency_reply_generated
    (predict_intent : string -> Intent) (generate_reply : Intent -> string -> string * string)
    (extract_reminders : string -> list Candidate)
    (t : Turn) (enabled : bool) (llm : option FlowDecision)
    (contact : option string * option string) (st : Store) :
  let r := fst (process predict_intent generate_reply extract_reminders t (mkGate false true)
                  enabled llm contact st) in
  t_flow r = "emergencia" /\
  t_reply r = fst (generate_reply (mkIntent (Some "emergencia_medica") 1) (text t)) /\
  t_decoder r = snd (generate_reply (mkIntent (Some "emergencia_medica") 1) (text t)).
Proof.
  cbv zeta. unfold process, process_gate. cbn [negb g_allow g_emergency].
  destruct (generate_reply (mkIntent (Some "emergencia_medica") 1) (text t)) as [reply ds].
  destruct (create_emergency_event _ _ _ _ _ _ _) as [evs eid]. simpl. auto.
Qed.

(** C2 (code bug): two gate-emergency turns of the same device and
    session, from an empty store, leave two open events for that
    (device, session): the gate path creates an event without looking for
    the open one. *)
Theorem gate_path_duplicates_open_event
    (predict_intent : string -> Intent) (generate_reply : Intent -> string -> string * string)
    (extract_reminders : string -> list Candidate)
    (enabled : bool) (llm : option FlowDecision) (contact : option string * option string) :
  let t := mkTurn "me duele mucho el pecho" "dev1" (Some "s1") in
  let g := mkGate false true in
  let st1 := snd (process predict_intent generate_reply extract_reminders t g enabled llm contact
                    (mkStore [] [])) in
  let st2 := snd (process predict_intent generate_reply extract_reminders t g enabled llm contact
                    st1) in
  map e_status (emergencies st2) = ["detected"; "detected"] /\
  length (filter (fun e => str_eqb (e_device e) "dev1" && opt_eqb (e_session e) (Some "s1")
                           && is_open e) (emergencies st2)) = 2%nat.
Proof.
  cbv zeta. unfold process, process_gate. cbn [negb g_allow g_emergency].
  simpl. destruct (generate_reply _ "me duele mucho el pecho") as [reply ds].
  simpl. split; reflexivity.
Qed.

(** ** Reminder upsert lemmas *)


Lemma matches_key device_id title session_id r r' :
  same_key r r' ->
  reminder_matches device_id title session_id r' = reminder_matches device_id title session_id r.
Proof.
  intros (Hi & Hd & Hs & Ht & Hu). unfold reminder_matches. rewrite Hd, Hs, Ht. reflexivity.
Qed.

Lemma in_scope_key device_id session_id r r' :
  same_key r r' -> in_scope device_id session_id r' = in_scope device_id session_id r.
Proof.
  intros (Hi & Hd & Hs & Ht & Hu). unfold in_scope. rewrite Hd, Hs. reflexivity.
Qed.

Lemma matches_titled device_id title session_id r :
  title <> "" ->
  reminder_matches device_id title session_id r
  = in_scope device_id session_id r && str_eqb (r_title r) title.
Proof.
  intro HT. unfold reminder_matches, in_scope.
  destruct (str_eqb title "") eqn:E; [apply str_eqb_eq in E; congruence|]. reflexivity.
Qed.

Lemma find_similar_empty rems device_id title due session_id :
  filter (reminder_matches device_id title session_id) rems = [] ->
  find_similar_reminder rems device_id title due session_id = None.
Proof.
  intro H. unfold find_similar_reminder. rewrite H. destruct due; reflexivity.
Qed.

Lemma find_similar_single rems device_id title due session_id x :
  filter (reminder_matches device_id title session_id) rems = [x] ->
  find_similar_reminder rems device_id title due session_id = Some x.
Proof.
  intro H. unfold find_similar_reminder. rewrite H. simpl.
  destruct due; [destruct (match r_due x with Some _ => _ | None => _ end)|]; reflexivity.
Qed.

Lemma fresh_reminder_id_gt rems r : In r rems -> (r_id r < fresh_reminder_id rems)%nat.
Proof.
  intro Hin. unfold fresh_reminder_id.
  assert (H : Forall (fun k => (k <= list_max (map r_id rems))%nat) (map r_id rems))
    by (apply list_max_le; reflexivity).
  rewrite Forall_forall in H. specialize (H (r_id r) (in_map _ _ _ Hin)). lia.
Qed.

Lemma fresh_for_map device_id session_id title rems g :
  (forall r, same_key r (g r)) ->
  fresh_for device_id session_id title rems -> fresh_for device_id session_id title (map g rems).
Proof.
  intros Hg Hf r' Hin Hs. apply in_map_iff in Hin as (r & <- & Hin).
  destruct (Hg r) as (_ & _ & _ & Ht & _). rewrite Ht.
  apply Hf; [exact Hin|]. rewrite <- (in_scope_key _ _ _ _ (Hg r)). exact Hs.
Qed.

Lemma fresh_for_no_match device_id session_id title rems :
  title <> "" -> fresh_for device_id session_id title rems ->
  filter (reminder_matches device_id title session_id) rems = [].
Proof.
  intros HT Hf. induction rems as [|r t IH]; [reflexivity|]. simpl.
  rewrite matches_titled by exact HT.
  destruct (in_scope device_id session_id r) eqn:Es.
  - destruct (str_eqb (r_title r) title) eqn:Et.
    + apply str_eqb_eq in Et. exfalso. exact (Hf r (or_introl eq_refl) Es Et).
    + apply IH. intros r' Hin. apply Hf. right. exact Hin.
  - apply IH. intros r' Hin. apply Hf. right. exact Hin.
Qed.

Lemma fresh_for_no_active device_id session_id title rems :
  fresh_for device_id session_id title rems -> active_titled device_id session_id title rems = [].
Proof.
  intro Hf. unfold active_titled. induction rems as [|r t IH]; [reflexivity|]. simpl.
  destruct (in_scope device_id session_id r) eqn:Es.
  - destruct (str_eqb (r_title r) title) eqn:Et.
    + apply str_eqb_eq in Et. exfalso. exact (Hf r (or_introl eq_refl) Es Et).
    + apply IH. intros r' Hin. apply Hf. right. exact Hin.
  - apply IH. intros r' Hin. apply Hf. right. exact Hin.
Qed.

Lemma opt_eqb_refl (o : option string) : opt_eqb o o = true.
Proof. destruct o; simpl; [apply str_eqb_refl|reflexivity]. Qed.

Lemma in_scope_own device_id session_id k title due tz status :
  in_scope device_id session_id (mkReminder k device_id session_id title due tz status) = true.
Proof.
  unfold in_scope. simpl. rewrite str_eqb_refl, opt_eqb_refl. destruct (truthy session_id); reflexivity.
Qed.

Lemma update_status_other rems rid status :
  (forall r, In r rems -> r_id r <> rid) -> update_reminder_status rems rid status = rems.
Proof.
  intro H. unfold update_reminder_status. rewrite <- (map_id rems) at 2.
  apply map_ext_in. intros r Hin. specialize (H r Hin).
  destruct (Nat.eqb (r_id r) rid) eqn:E; [apply Nat.eqb_eq in E; congruence|reflexivity].
Qed.

Lemma create_in_process_raises rems device_id title due tz status :
  create_reminder_py rems process_create_kwargs device_id title due tz status = PyExc "TypeError".
Proof. reflexivity. Qed.

Lemma update_status_keys rems rid status :
  map row_key (update_reminder_status rems rid status) = map row_key rems.
Proof.
  unfold update_reminder_status. rewrite map_map. apply map_ext. intro r.
  destruct (Nat.eqb (r_id r) rid); reflexivity.
Qed.

Lemma cleanup_keys rems device_id title due keep :
  map row_key (cleanup_reminder_duplicates rems device_id title due keep) = map row_key rems.
Proof.
  unfold cleanup_reminder_duplicates. destruct due as [d|]; [|reflexivity].
  destruct (str_eqb title ""); [reflexivity|].
  rewrite map_map. apply map_ext. intro r. destruct (_ && _); reflexivity.
Qed.

Lemma upsert_reminder_py_keys rems device_id session_id title due tz target rems' k :
  upsert_reminder_py rems device_id session_id title due tz target = PyOk (rems', k) ->
  map row_key rems' = map row_key rems.
Proof.
  unfold upsert_reminder_py.
  destruct (find_similar_reminder_py rems device_id title due session_id) as [[ex|]|e];
    [| rewrite create_in_process_raises; discriminate | discriminate].
  unfold update_reminder_status_py.
  destruct (negb (mem target REMINDER_STATUSES)); [discriminate|].
  destruct (existsb _ rems); intro H; injection H as <- _;
    rewrite cleanup_keys; [apply update_status_keys|reflexivity].
Qed.

Lemma upsert_all_py_keys rems device_id session_id txt target cands :
  map row_key (fst (fst (upsert_all_py rems device_id session_id txt target cands)))
  = map row_key rems.
Proof.
  revert rems. induction cands as [|c t IH]; intro rems; [reflexivity|].
  cbn [upsert_all_py].
  set (title := if truthy (c_title c) then _ else _).
  destruct (upsert_reminder_py rems device_id session_id title (c_due c) (c_tz c) target)
    as [[rems1 k]|e] eqn:E; [|reflexivity].
  specialize (IH rems1).
  destruct (upsert_all_py rems1 device_id session_id txt target t) as [[rems2 ids] exc].
  cbn [fst] in *. rewrite IH. exact (upsert_reminder_py_keys _ _ _ _ _ _ _ _ _ E).
Qed.











(** ** Further properties: flow policy *)

Lemma merge_flow_cases (local llm : FlowDecision) (s : Q) :
  flow (merge_flow_decisions local (Some llm) s) = flow local \/
  flow (merge_flow_decisions local (Some llm) s) = flow llm.
Proof.
  simpl. destruct (str_eqb (flow local) (flow llm)); [left; reflexivity|].
  destruct (str_eqb (flow local) "emergencia") eqn:E1.
  - left. apply str_eqb_eq in E1. symmetry. exact E1.
  - destruct (str_eqb (flow llm) "emergencia") eqn:E2; simpl.
    + right. apply str_eqb_eq in E2. symmetry. exact E2.
    + destruct (str_eqb (flow local) "recordatorio") eqn:E3.
      * left. apply str_eqb_eq in E3. symmetry. exact E3.
      * destruct (str_eqb (flow llm) "recordatorio") eqn:E4; simpl.
        -- right. apply str_eqb_eq in E4. symmetry. exact E4.
        -- right. reflexivity.
Qed.

Lemma decide_flow_local_range (txt : string) (intent : Intent) (gate : Gate) :
  mem (flow (decide_flow_local txt intent gate)) ALLOWED_FLOWS = true /\
  source (decide_flow_local txt intent gate) = "local" /\
  next_prompt (decide_flow_local txt intent gate) <> None.
Proof.
  unfold decide_flow_local.
  destruct (g_emergency gate || mem (intent_label intent) EMERGENCY_LABELS);
    [repeat split; discriminate|].
  destruct (str_eqb (intent_label intent) "recordatorio" && Qle_bool (6 # 10) (i_score intent));
    [repeat split; discriminate|].
  destruct (_keyword_recordatorio txt && Qltb (i_score intent) (7 # 10));
    [repeat split; discriminate|].
  destruct (mem (intent_label intent) CONSULTA_LABELS); [repeat split; discriminate|].
  destruct (mem (intent_label intent) ACOMP_LABELS); repeat split; discriminate.
Qed.

Lemma suggest_flow_allowed json_loads py_repr enabled call d :
  suggest json_loads py_repr enabled call = Some d -> mem (flow d) ALLOWED_FLOWS = true.
Proof.
  unfold suggest. destruct enabled; cbn [negb]; [|discriminate].
  destruct call as [c|e]; [|discriminate].
  destruct (json_loads _) as [data|]; [|discriminate].
  destruct (json_get data "flow" (JStr "")) as [fv|]; [|discriminate].
  destruct (mem (lower (strip (py_str py_repr fv))) ALLOWED_FLOWS) eqn:Em; cbn [negb];
    [|discriminate].
  destruct (json_get data "next_prompt" JNull), (json_get data "corrected" (JBool false));
    try discriminate.
  intro H. injection H as <-. exact Em.
Qed.

Lemma decide_and_merge_cases txt intent gate enabled llm :
  let '(h, l) := decide_and_merge txt intent gate enabled llm in
  (deref h l = decide_flow_local txt intent gate /\ (enabled = false \/ llm = None))
  \/ (exists d, enabled = true /\ llm = Some d /\
        deref h l = merge_flow_decisions (decide_flow_local txt intent gate) (Some d) (i_score intent)).
Proof.
  unfold decide_and_merge. destruct enabled.
  - destruct llm as [d|].
    + right. exists d. split; [reflexivity|]. split; [reflexivity|].
      change [decide_flow_local txt intent gate] with (app [] [decide_flow_local txt intent gate]).
      unfold alloc. rewrite deref_alloc_last. reflexivity.
    + left. split; [reflexivity|right; reflexivity].
  - left. split; [reflexivity|left; reflexivity].
Qed.

Lemma process_main_flow predict_intent generate_reply extract_reminders t gate enabled llm
    contact st :
  let '(r, _, _, _) := process_main predict_intent generate_reply extract_reminders t gate enabled
                         llm contact st in
  let '(h, l) := decide_and_merge (text t) (predict_intent (text t)) gate enabled llm in
  t_flow r = flow (deref h l) /\ t_flow_source r = source (deref h l).
Proof.
  unfold process_main.
  destruct (decide_and_merge (text t) (predict_intent (text t)) gate enabled llm) as [h l].
  pose proof (refine_frame h l (text t) contact) as Hr.
  destruct (refine h l (text t) contact) as [[h1 l1] a].
  destruct Hr as (-> & _ & Hf & _).
  destruct (if str_eqb (flow (deref h1 l)) "emergencia" then _ else _) as [reply ds].
  destruct (persist _ _ _ _ _ _) as [[st1 rids] eid]. simpl.
  split; [apply Hf|reflexivity].
Qed.

(** X1: when either the local or the advisory decision has the emergency
    flow, the merge has the emergency flow; when the two flows differ its
    source is "hybrid+safety" and its prompt the advisory prompt when
    truthy, else the local one. *)
Theorem merge_emergency_dominates (local llm : FlowDecision) (s : Q)
    (Hem : flow local = "emergencia" \/ flow llm = "emergencia") :
  let m := merge_flow_decisions local (Some llm) s in
  flow m = "emergencia" /\
  (flow local <> flow llm ->
   source m = "hybrid+safety" /\ next_prompt m = or_else (next_prompt llm) (next_prompt local)).
Proof.
  cbv zeta. cbn [merge_flow_decisions].
  destruct (str_eqb (flow local) (flow llm)) eqn:E; cbn [flow source next_prompt].
  - apply str_eqb_eq in E. split; [destruct Hem; congruence|]. intro Hne. contradiction.
  - assert (Hor : str_eqb (flow local) "emergencia" || str_eqb (flow llm) "emergencia" = true).
    { destruct Hem as [H|H]; rewrite H, str_eqb_refl; [reflexivity|apply orb_true_r]. }
    rewrite Hor. cbn [flow source next_prompt]. split; [reflexivity|]. intros _. split; reflexivity.
Qed.

Lemma merge_emergency_dominates_witness :
  let local := FD "acompanamiento_social" (Some "a") "intent_acompanamiento" in
  let llm := mkFlowDecision "emergencia" (Some "b") "llm_validated (corrected=True)" "llm" in
  (flow local = "emergencia" \/ flow llm = "emergencia") /\
  flow (merge_flow_decisions local (Some llm) (9 # 10)) = "emergencia".
Proof.
  intros local llm.
  assert (H : flow local = "emergencia" \/ flow llm = "emergencia") by (right; reflexivity).
  split; [exact H|]. exact (proj1 (merge_emergency_dominates local llm (9 # 10) H)).
Defined.

(** X2: when neither decision has the emergency flow and one of them has
    the reminder flow, the merge has the reminder flow; when the two flows
    differ its source is "hybrid+preservation" and its prompt the advisory
    prompt when truthy, else the local one. *)
Theorem merge_reminder_preserved (local llm : FlowDecision) (s : Q)
    (Hl : flow local <> "emergencia") (Hd : flow llm <> "emergencia")
    (Hrec : flow local = "recordatorio" \/ flow llm = "recordatorio") :
  let m := merge_flow_decisions local (Some llm) s in
  flow m = "recordatorio" /\
  (flow local <> flow llm ->
   source m = "hybrid+preservation" /\ next_prompt m = or_else (next_prompt llm) (next_prompt local)).
Proof.
  cbv zeta. cbn [merge_flow_decisions].
  destruct (str_eqb (flow local) (flow llm)) eqn:E; cbn [flow source next_prompt].
  - apply str_eqb_eq in E. split; [destruct Hrec; congruence|]. intro Hne. contradiction.
  - apply str_eqb_neq in Hl, Hd. rewrite Hl, Hd. cbn [orb].
    assert (Hor : str_eqb (flow local) "recordatorio" || str_eqb (flow llm) "recordatorio" = true).
    { destruct Hrec as [H|H]; rewrite H, str_eqb_refl; [reflexivity|apply orb_true_r]. }
    rewrite Hor. cbn [flow source next_prompt]. split; [reflexivity|]. intros _. split; reflexivity.
Qed.

Lemma merge_reminder_preserved_witness :
  let local := FD "recordatorio" (Some "a") "keyword_recordatorio" in
  let llm := mkFlowDecision "consulta_informacion" (Some "b") "llm_validated (corrected=True)" "llm" in
  flow local <> "emergencia" /\ flow llm <> "emergencia" /\
  (flow local = "recordatorio" \/ flow llm = "recordatorio") /\
  flow (merge_flow_decisions local (Some llm) (9 # 10)) = "recordatorio".
Proof.
  intros local llm.
  assert (H1 : flow local <> "emergencia") by discriminate.
  assert (H2 : flow llm <> "emergencia") by discriminate.
  assert (H3 : flow local = "recordatorio" \/ flow llm = "recordatorio") by (left; reflexivity).
  split; [exact H1|]. split; [exact H2|]. split; [exact H3|].
  exact (proj1 (merge_reminder_preserved local llm (9 # 10) H1 H2 H3)).
Defined.

(** X3: the merge never makes up a flow: its flow is the local or the
    advisory one; when the flows differ and neither is the emergency or
    the reminder flow, the advisory flow and prompt win with source
    "hybrid+corrected". *)
Theorem merge_flow_of_inputs (local llm : FlowDecision) (s : Q) :
  let m := merge_flow_decisions local (Some llm) s in
  (flow m = flow local \/ flow m = flow llm) /\
  (flow local <> flow llm ->
   ~ In (flow local) ["emergencia"; "recordatorio"] -> ~ In (flow llm) ["emergencia"; "recordatorio"] ->
   flow m = flow llm /\ next_prompt m = next_prompt llm /\ source m = "hybrid+corrected").
Proof.
  cbv zeta. split; [apply merge_flow_cases|].
  intros Hne Hl Hd. simpl.
  assert (N : forall f, ~ In f ["emergencia"; "recordatorio"] ->
              str_eqb f "emergencia" = false /\ str_eqb f "recordatorio" = false).
  { intros f Hf. split; apply str_eqb_neq; intro E; apply Hf; subst f; simpl; tauto. }
  destruct (N _ Hl) as [A1 A2]. destruct (N _ Hd) as [B1 B2].
  apply str_eqb_neq in Hne. rewrite Hne, A1, B1, A2, B2. simpl. repeat split.
Qed.

Lemma merge_flow_of_inputs_witness :
  let local := FD "acompanamiento_social" (Some "a") "intent_acompanamiento" in
  let llm := mkFlowDecision "consulta_informacion" (Some "b") "llm_validated (corrected=True)" "llm" in
  flow local <> flow llm /\ ~ In (flow local) ["emergencia"; "recordatorio"] /\
  ~ In (flow llm) ["emergencia"; "recordatorio"] /\
  source (merge_flow_decisions local (Some llm) (1 # 2)) = "hybrid+corrected".
Proof.
  intros local llm.
  assert (H1 : flow local <> flow llm) by discriminate.
  assert (H2 : ~ In (flow local) ["emergencia"; "recordatorio"])
    by (simpl; intros [H|[H|[]]]; discriminate).
  assert (H3 : ~ In (flow llm) ["emergencia"; "recordatorio"])
    by (simpl; intros [H|[H|[]]]; discriminate).
  split; [exact H1|]. split; [exact H2|]. split; [exact H3|].
  exact (proj2 (proj2 (proj2 (merge_flow_of_inputs local llm (1 # 2)) H1 H2 H3))).
Defined.

(** X4: the local policy always decides: its flow is one of the four
    allowed flows (never "bloqueado"), with a prompt and the source
    "local"; the flow is "emergencia" exactly when the gate flags an
    emergency or the label is an emergency label. *)
Theorem decide_flow_local_allowed (txt : string) (intent : Intent) (gate : Gate) :
  let d := decide_flow_local txt intent gate in
  mem (flow d) ALLOWED_FLOWS = true /\ source d = "local" /\ next_prompt d <> None /\
  (flow d = "emergencia" <->
   g_emergency gate = true \/ mem (intent_label intent) EMERGENCY_LABELS = true).
Proof.
  cbv zeta. destruct (decide_flow_local_range txt intent gate) as (H1 & H2 & H3).
  split; [exact H1|]. split; [exact H2|]. split; [exact H3|].
  unfold decide_flow_local.
  destruct (g_emergency gate || mem (intent_label intent) EMERGENCY_LABELS) eqn:E.
  - apply orb_true_iff in E. cbn [FD flow]. tauto.
  - apply orb_false_iff in E. destruct E as [E1 E2]. rewrite E1, E2.
    split; [|intros [H|H]; discriminate].
    destruct (str_eqb (intent_label intent) "recordatorio" && Qle_bool (6 # 10) (i_score intent));
      [cbn; discriminate|].
    destruct (_keyword_recordatorio txt && Qltb (i_score intent) (7 # 10)); [cbn; discriminate|].
    destruct (mem (intent_label intent) CONSULTA_LABELS); [cbn; discriminate|].
    destruct (mem (intent_label intent) ACOMP_LABELS); cbn; discriminate.
Qed.

(** X5: with the advisory decision produced by [suggest], every turn
    through [process] ends in one of the four allowed flows when the gate
    lets the text through, and in "emergencia" or "bloqueado" (after the
    gate's [emergency] flag) when it does not. *)
Theorem process_flow_range (predict_intent : string -> Intent)
    (generate_reply : Intent -> string -> string * string)
    (extract_reminders : string -> list Candidate) (json_loads : string -> option json)
    (py_repr : json -> string) (t : Turn) (gate : Gate) (enabled : bool) (call : call_result)
    (contact : option string * option string) (st : Store) :
  let r := fst (process predict_intent generate_reply extract_reminders t gate enabled
                  (suggest json_loads py_repr enabled call) contact st) in
  if g_allow gate then mem (t_flow r) ALLOWED_FLOWS = true
  else t_flow r = (if g_emergency gate then "emergencia" else "bloqueado").
Proof.
  cbv zeta. unfold process. destruct (g_allow gate); cbn [negb].
  - set (llm := suggest json_loads py_repr enabled call).
    pose proof (process_main_flow predict_intent generate_reply extract_reminders t gate enabled
                  llm contact st) as Hp.
    destruct (process_main _ _ _ _ _ _ _ _ _) as [[[r st1] h1] l1].
    pose proof (decide_and_merge_cases (text t) (predict_intent (text t)) gate enabled llm) as Hc.
    destruct (decide_and_merge (text t) (predict_intent (text t)) gate enabled llm) as [h l].
    cbn [fst]. rewrite (proj1 Hp).
    destruct Hc as [[-> _]|(d & _ & Hd & ->)]; [apply decide_flow_local_range|].
    destruct (merge_flow_cases (decide_flow_local (text t) (predict_intent (text t)) gate) d
                (i_score (predict_intent (text t)))) as [E|E]; rewrite E;
      [apply decide_flow_local_range|].
    exact (suggest_flow_allowed json_loads py_repr enabled call d Hd).
  - unfold process_gate. destruct (g_emergency gate); [|reflexivity].
    destruct (generate_reply _ _) as [reply ds].
    destruct (create_emergency_event _ _ _ _ _ _ _) as [evs eid]. reflexivity.
Qed.

(** X6: when the assistant is disabled or gives no advisory decision, an
    allowed turn keeps the flow of the local policy and reports the flow
    source "local". *)
Theorem process_without_advisory (predict_intent : string -> Intent)
    (generate_reply : Intent -> string -> string * string)
    (extract_reminders : string -> list Candidate) (t : Turn) (gate : Gate) (enabled : bool)
    (llm : option FlowDecision) (contact : option string * option string) (st : Store)
    (Hallow : g_allow gate = true) (Hno : enabled = false \/ llm = None) :
  let r := fst (process predict_intent generate_reply extract_reminders t gate enabled llm
                  contact st) in
  t_flow r = flow (decide_flow_local (text t) (predict_intent (text t)) gate) /\
  t_flow_source r = "local".
Proof.
  cbv zeta. unfold process. rewrite Hallow. cbn [negb].
  pose proof (process_main_flow predict_intent generate_reply extract_reminders t gate enabled
                llm contact st) as Hp.
  destruct (process_main _ _ _ _ _ _ _ _ _) as [[[r st1] h1] l1].
  pose proof (decide_and_merge_cases (text t) (predict_intent (text t)) gate enabled llm) as Hc.
  destruct (decide_and_merge (text t) (predict_intent (text t)) gate enabled llm) as [h l].
  cbn [fst]. rewrite (proj1 Hp), (proj2 Hp).
  destruct Hc as [[-> _]|(d & He & Hd & _)].
  - split; [reflexivity|apply decide_flow_local_range].
  - exfalso. destruct Hno; congruence.
Qed.

Lemma process_without_advisory_witness :
  let pi := fun _ : string => mkIntent (Some "consulta_informacion") (9 # 10) in
  let gr := fun (_ : Intent) (_ : string) => ("hola", "mock") in
  let t := mkTurn "que hora es" "dev1" (Some "s1") in
  g_allow (mkGate true false) = true /\ (false = false \/ Some (FD "emergencia" None "x") = None) /\
  t_flow (fst (process pi gr (fun _ => []) t (mkGate true false) false
                 (Some (FD "emergencia" None "x")) (None, None) (mkStore [] [])))
  = "consulta_informacion".
Proof.
  intros pi gr t.
  assert (H1 : g_allow (mkGate true false) = true) by reflexivity.
  assert (H2 : false = false \/ Some (FD "emergencia" None "x") = None) by (left; reflexivity).
  split; [exact H1|]. split; [exact H2|].
  rewrite (proj1 (process_without_advisory pi gr (fun _ => []) t (mkGate true false) false
                    (Some (FD "emergencia" None "x")) (None, None) (mkStore [] []) H1 H2)).
  reflexivity.
Defined.

(** X7: refining an emergency decision always ends with the reason that
    [_handle_emergency] assigns: a cancel phrase wins over a confirm word,
    the contact-based reasons never survive; the action is
    "contact_family" exactly when the device has a truthy contact phone,
    else "call_services"; the status the persistence step maps the reason
    to is "cancelled", "escalated" or "confirming", never "detected". *)
Theorem refine_emergency_outcome (h : heap) (l : loc) (txt : string)
    (contact_name contact_phone : option string)
    (Hl : (l < length h)%nat) (Hf : flow (deref h l) = "emergencia") :
  let '(h1, l1, action) := refine h l txt (contact_name, contact_phone) in
  l1 = l /\
  reason (deref h1 l) =
    (if any_in emergency_cancel_words (lower txt) then "emergencia_cancel"
     else if any_in emergency_confirm_words (lower txt) then "emergencia_confirm"
     else "emergencia_check") /\
  action = Some (if truthy contact_phone then "contact_family" else "call_services") /\
  In (emergency_status_map (reason (deref h1 l))) ["cancelled"; "escalated"; "confirming"].
Proof.
  unfold refine. rewrite Hf, str_eqb_refl.
  assert (Hgen : forall p r, (l < length (set_prompt_reason h l p r))%nat)
    by (intros; rewrite set_length; exact Hl).
  destruct (truthy contact_phone); unfold _handle_emergency;
    destruct (any_in emergency_cancel_words (lower txt));
    try destruct (any_in emergency_confirm_words (lower txt));
    (split; [reflexivity|]); rewrite deref_set_same by apply Hgen; cbn [reason];
    (split; [reflexivity|]); (split; [reflexivity|]); cbv; tauto.
Qed.

Lemma refine_emergency_outcome_witness :
  let h := [FD "emergencia" None "gate_emergency"] in
  (0 < length h)%nat /\ flow (deref h 0%nat) = "emergencia" /\
  (let '(h1, _, action) := refine h 0%nat "falsa alarma, llama a mi hija" (Some "Ana", Some "555") in
   reason (deref h1 0%nat) = "emergencia_cancel" /\ action = Some "contact_family").
Proof.
  intros h.
  assert (H1 : (0 < length h)%nat) by (simpl; lia).
  assert (H2 : flow (deref h 0%nat) = "emergencia") by reflexivity.
  split; [exact H1|]. split; [exact H2|].
  pose proof (refine_emergency_outcome h 0%nat "falsa alarma, llama a mi hija" (Some "Ana") (Some "555")
                H1 H2) as R.
  destruct (refine h 0%nat "falsa alarma, llama a mi hija" (Some "Ana", Some "555")) as [[h1 l1] a].
  destruct R as (_ & R1 & R2 & _). split; [rewrite R1; reflexivity|rewrite R2; reflexivity].
Defined.

(** ** Further properties: persistence as the calls behave *)

(** X8: the persistence step of [process] never inserts or deletes a
    reminder row and never changes a row's id, device, title, due time or
    time zone (only the status, and the [updated_at] stamp the update sets,
    may change; timestamps are not modelled): the create
    call passes keywords ([session_id], [notes], [meta],
    [source_message_id]) that [repository.create_reminder] does not
    declare, so it raises [TypeError], which the step swallows. *)
Theorem persist_never_creates_reminder (extract_reminders : string -> list Candidate) (t : Turn)
    (d : FlowDecision) (action contact_name : option string) (st : Store) :
  let '(st', _, _) := persist_py extract_reminders t d action contact_name st in
  map row_key (reminders st') = map row_key (reminders st).
Proof.
  unfold persist_py.
  destruct (str_eqb (flow d) "recordatorio").
  - destruct (str_eqb (reminder_target_status (reason d) (text t)) "cancelled").
    + unfold get_latest_reminder_py. reflexivity.
    + pose proof (upsert_all_py_keys (reminders st) (device_id t) (session_id t) (text t)
                    (reminder_target_status (reason d) (text t))
                    (match extract_reminders (text t) with
                     | [] => [mkCandidate (Some (text t)) None None]
                     | rs => rs
                     end)) as H.
      destruct (upsert_all_py _ _ _ _ _ _) as [[rs ids] exc]. exact H.
  - destruct (str_eqb (flow d) "emergencia"); [|reflexivity].
    destruct (get_latest_open_emergency_py _ _ _) as [[ev|]|e]; [| |reflexivity].
    + destruct (update_emergency_status_py _ _ _ _) as [[evs b]|e]; reflexivity.
    + destruct (create_emergency_event_py _ _ _ _ _ _) as [[evs eid]|e]; reflexivity.
Qed.

(** X9: every turn that reaches [process] through [POST /chat] has a
    non-blank, hence truthy, session id; its persistence step then changes
    neither table and records no reminder id and no event id, whatever the
    decision: the session filters of [find_similar_reminder] and
    [get_latest_open_emergency] name a column the table models lack, and
    the cancel branch calls [get_latest_reminder] with a keyword it does
    not declare. *)
Theorem chat_turn_persists_nothing (normalize : string -> string) (txt device session : string)
    (t : Turn) (Hreq : chat_args normalize txt device session = HttpOk t) :
  forall extract_reminders d action contact_name st,
    persist_py extract_reminders t d action contact_name st = (st, [], None).
Proof.
  unfold chat_args in Hreq.
  destruct (str_eqb (strip txt) ""); [discriminate|].
  destruct (str_eqb (strip device) ""); [discriminate|].
  destruct (str_eqb (strip session) "") eqn:Es; [discriminate|].
  injection Hreq as <-.
  assert (Ht : truthy (Some (strip session)) = true) by (cbn [truthy]; rewrite Es; reflexivity).
  intros er d action cn st. unfold persist_py. cbn [text session_id device_id].
  destruct (str_eqb (flow d) "recordatorio").
  - destruct (str_eqb (reminder_target_status _ _) "cancelled").
    + reflexivity.
    + destruct (match er (normalize (strip txt)) with
                | [] => [mkCandidate (Some (normalize (strip txt))) None None]
                | rs => rs
                end) as [|c cs] eqn:Ec.
      * destruct (er (normalize (strip txt))); discriminate.
      * cbn [upsert_all_py]. unfold upsert_reminder_py at 1, find_similar_reminder_py at 1.
        rewrite Ht. cbn. destruct st; reflexivity.
  - destruct (str_eqb (flow d) "emergencia"); [|reflexivity].
    unfold get_latest_open_emergency_py. rewrite Ht. reflexivity.
Qed.

Lemma chat_turn_persists_nothing_witness :
  chat_args (fun s => s) "Recuerdame la cita manana" "dev1" " s1 "
  = HttpOk (mkTurn "Recuerdame la cita manana" "dev1" (Some "s1")) /\
  persist_py (fun _ => []) (mkTurn "Recuerdame la cita manana" "dev1" (Some "s1"))
    (FD "recordatorio" None "recordatorio_pedir_hora") None None (mkStore [] [])
  = (mkStore [] [], [], None).
Proof.
  assert (H : chat_args (fun s => s) "Recuerdame la cita manana" "dev1" " s1 "
              = HttpOk (mkTurn "Recuerdame la cita manana" "dev1" (Some "s1"))) by reflexivity.
  split; [exact H|].
  exact (chat_turn_persists_nothing (fun s => s) "Recuerdame la cita manana" "dev1" " s1 " _ H
           (fun _ => []) (FD "recordatorio" None "recordatorio_pedir_hora") None None
           (mkStore [] [])).
Defined.

(** ** Emergency table lemmas *)

Lemma latest_open_none evs device_id session_id :
  truthy session_id = false ->
  get_latest_open_emergency evs device_id session_id = None ->
  forall e, In e evs -> open_of device_id e = false.
Proof.
  intros Hs H e Hin. unfold get_latest_open_emergency in H. rewrite Hs in H.
  destruct (rev (filter _ evs)) eqn:E; [|discriminate].
  apply (f_equal (@rev _)) in E. rewrite rev_involutive in E. cbn in E.
  unfold open_of. destruct (str_eqb (e_device e) device_id && is_open e) eqn:F; [|reflexivity].
  assert (Hf : In e (filter (fun e => str_eqb (e_device e) device_id && true && is_open e) evs)).
  { apply filter_In. split; [exact Hin|]. rewrite andb_true_r. exact F. }
  rewrite E in Hf. contradiction.
Qed.

Lemma latest_open_none_iff evs device_id :
  get_latest_open_emergency evs device_id None = None <->
  forall e, In e evs -> open_of device_id e = false.
Proof.
  split; [apply latest_open_none; reflexivity|].
  intro H. unfold get_latest_open_emergency. cbn [truthy].
  assert (E : filter (fun e => str_eqb (e_device e) device_id && true && is_open e) evs = []).
  { induction evs as [|x t IH]; [reflexivity|]. cbn [filter].
    pose proof (H x (or_introl eq_refl)) as Hx. unfold open_of in Hx.
    rewrite andb_true_r, Hx. apply IH. intros e He. apply H. right. exact He. }
  rewrite E. reflexivity.
Qed.

Lemma latest_open_some evs device_id session_id ev :
  get_latest_open_emergency evs device_id session_id = Some ev ->
  In ev evs /\ open_of device_id ev = true.
Proof.
  unfold get_latest_open_emergency.
  destruct (rev (filter _ evs)) as [|x t] eqn:E; [discriminate|].
  intro H. injection H as <-.
  assert (Hin : In x (filter (fun e => str_eqb (e_device e) device_id
                                       && (if truthy session_id then opt_eqb (e_session e) session_id
                                           else true) && is_open e) evs)).
  { apply in_rev. rewrite E. left. reflexivity. }
  apply filter_In in Hin as [Hin Hf]. split; [exact Hin|].
  unfold open_of. apply andb_true_iff in Hf as [Hf Ho]. apply andb_true_iff in Hf as [Hd _].
  rewrite Hd, Ho. reflexivity.
Qed.

Lemma nodup_ids_inj evs a b :
  NoDup (map e_id evs) -> In a evs -> In b evs -> e_id a = e_id b -> a = b.
Proof.
  induction evs as [|x t IH]; [intros _ []|].
  cbn [map]. intros Hnd Ha Hb Hab. inversion Hnd as [|y l Hnin Hnd' Heq]. subst.
  destruct Ha as [<-|Ha], Hb as [<-|Hb]; try reflexivity.
  - exfalso. apply Hnin. rewrite Hab. apply in_map. exact Hb.
  - exfalso. apply Hnin. rewrite <- Hab. apply in_map. exact Ha.
  - apply IH; assumption.
Qed.

Lemma nodup_snoc {A} (l : list A) x : NoDup l -> ~ In x l -> NoDup (app l [x]).
Proof.
  induction l as [|a t IH]; intros Hnd Hx; cbn [app].
  - constructor; [intros []|constructor].
  - inversion Hnd as [|y l Hnin Hnd' Heq]. subst. constructor.
    + intro H. apply in_app_or in H as [H|[H|[]]]; [contradiction|].
      apply Hx. left. symmetry. exact H.
    + apply IH; [exact Hnd'|]. intro H. apply Hx. right. exact H.
Qed.

Lemma is_open_cancelled e : e_status e = "cancelled" -> is_open e = false.
Proof. intro H. unfold is_open. rewrite H. reflexivity. Qed.

Lemma update_emergency_ids evs eid status action :
  map e_id (update_emergency_status evs eid status action) = map e_id evs.
Proof.
  unfold update_emergency_status. rewrite map_map. apply map_ext. intro e.
  destruct (Nat.eqb (e_id e) eid); reflexivity.
Qed.

Lemma in_update_emergency evs eid status action e' :
  In e' (update_emergency_status evs eid status action) ->
  exists e, In e evs /\
    ((e_id e = eid /\ e_id e' = eid /\ e_device e' = e_device e /\ e_status e' = status)
     \/ (e_id e <> eid /\ e' = e)).
Proof.
  unfold update_emergency_status. intro H. apply in_map_iff in H as (e & <- & Hin).
  exists e. split; [exact Hin|].
  destruct (Nat.eqb (e_id e) eid) eqn:E.
  - left. apply Nat.eqb_eq in E. cbn. auto.
  - right. apply Nat.eqb_neq in E. auto.
Qed.

Lemma update_keeps_wf evs ev status action :
  events_wf evs -> In ev evs -> is_open ev = true ->
  events_wf (update_emergency_status evs (e_id ev) status action).
Proof.
  intros (Hnd & Hlt & Hone) Hev Hopen.
  assert (Hlen : length (update_emergency_status evs (e_id ev) status action) = length evs)
    by (unfold update_emergency_status; apply length_map).
  split; [rewrite update_emergency_ids; exact Hnd|]. split.
  - intros e' Hin. rewrite Hlen.
    destruct (in_update_emergency _ _ _ _ _ Hin) as (e & He & [(Hi & Hi' & _)|(_ & ->)]).
    + rewrite Hi', <- Hi. apply Hlt. exact He.
    + apply Hlt. exact He.
  - intros e1' e2' H1 H2 O1 O2 Hd.
    destruct (in_update_emergency _ _ _ _ _ H1) as (e1 & He1 & C1).
    destruct (in_update_emergency _ _ _ _ _ H2) as (e2 & He2 & C2).
    destruct C1 as [(Hi1 & Hi1' & Hd1 & Hs1)|(Hn1 & ->)], C2 as [(Hi2 & Hi2' & Hd2 & Hs2)|(Hn2 & ->)].
    + assert (E1 : e1 = ev) by (apply (nodup_ids_inj evs); assumption).
      assert (E2 : e2 = ev) by (apply (nodup_ids_inj evs); assumption).
      unfold update_emergency_status in H1, H2.
      apply in_map_iff in H1 as (x1 & <- & Hx1). apply in_map_iff in H2 as (x2 & <- & Hx2).
      destruct (Nat.eqb (e_id x1) (e_id ev)) eqn:X1, (Nat.eqb (e_id x2) (e_id ev)) eqn:X2;
        cbn [e_id] in Hi1', Hi2'.
      * apply Nat.eqb_eq in X1, X2.
        assert (x1 = ev) by (apply (nodup_ids_inj evs); assumption).
        assert (x2 = ev) by (apply (nodup_ids_inj evs); assumption).
        subst. reflexivity.
      * apply Nat.eqb_neq in X2. contradiction.
      * apply Nat.eqb_neq in X1. contradiction.
      * apply Nat.eqb_neq in X1. contradiction.
    + exfalso. assert (E1 : e1 = ev) by (apply (nodup_ids_inj evs); assumption). subst e1.
      assert (e2 = ev) by (apply Hone; [exact He2|exact Hev|exact O2|exact Hopen|congruence]).
      subst. contradiction.
    + exfalso. assert (E2 : e2 = ev) by (apply (nodup_ids_inj evs); assumption). subst e2.
      assert (e1 = ev) by (apply Hone; [exact He1|exact Hev|exact O1|exact Hopen|congruence]).
      subst. contradiction.
    + apply Hone; assumption.
Qed.

Lemma create_keeps_wf evs device_id status rsn action contact :
  events_wf evs -> (forall e, In e evs -> open_of device_id e = false) ->
  events_wf (app evs [mkEvent (length evs) device_id None status rsn action contact]).
Proof.
  intros (Hnd & Hlt & Hone) Hnone.
  set (N := mkEvent (length evs) device_id None status rsn action contact).
  split; [|split].
  - rewrite map_app. apply nodup_snoc; [exact Hnd|].
    intro H. apply in_map_iff in H as (e & He & Hin). specialize (Hlt e Hin). cbn in He. lia.
  - intros e Hin. rewrite length_app. cbn [length].
    apply in_app_or in Hin as [Hin|[<-|[]]]; [specialize (Hlt e Hin); lia|cbn; lia].
  - intros e1 e2 H1 H2 O1 O2 Hd.
    apply in_app_or in H1 as [H1|[<-|[]]]; apply in_app_or in H2 as [H2|[<-|[]]].
    + apply Hone; assumption.
    + exfalso. specialize (Hnone e1 H1). unfold open_of in Hnone.
      rewrite Hd, O1 in Hnone. cbn [e_device N] in Hnone. rewrite str_eqb_refl in Hnone.
      discriminate.
    + exfalso. specialize (Hnone e2 H2). unfold open_of in Hnone.
      rewrite <- Hd, O2 in Hnone. cbn [e_device N] in Hnone. rewrite str_eqb_refl in Hnone.
      discriminate.
    + reflexivity.
Qed.

(** X10: the persistence step of [process] keeps the emergency table
    invariant: distinct event ids, and never two open events of the same
    device. It updates the latest open event of the device when there is
    one and creates an event only when the device has none (or, with a
    truthy session id, fails before writing). *)
Theorem persist_keeps_one_open_event (extract_reminders : string -> list Candidate) (t : Turn)
    (d : FlowDecision) (action contact_name : option string) (st : Store)
    (Hwf : events_wf (emergencies st)) :
  events_wf (emergencies (fst (fst (persist_py extract_reminders t d action contact_name st)))).
Proof.
  unfold persist_py.
  destruct (str_eqb (flow d) "recordatorio").
  - destruct (str_eqb (reminder_target_status (reason d) (text t)) "cancelled").
    + destruct (get_latest_reminder_py _ _ _) as [[ex|]|e]; [|exact Hwf|exact Hwf].
      destruct (update_reminder_status_py _ _ _) as [[rs b]|e]; exact Hwf.
    + destruct (upsert_all_py _ _ _ _ _ _) as [[rs ids] exc]. exact Hwf.
  - destruct (str_eqb (flow d) "emergencia"); [|exact Hwf].
    unfold get_latest_open_emergency_py.
    destruct (truthy (session_id t)) eqn:Hs; [exact Hwf|].
    destruct (get_latest_open_emergency (emergencies st) (device_id t) (session_id t))
      as [ev|] eqn:Hl.
    + destruct (latest_open_some _ _ _ _ Hl) as [Hin Ho].
      unfold open_of in Ho. apply andb_true_iff in Ho as [_ Ho].
      unfold update_emergency_status_py.
      destruct (negb (mem _ EMERGENCY_STATUSES)); [exact Hwf|].
      destruct (existsb _ _); [|exact Hwf].
      apply update_keeps_wf; assumption.
    + unfold create_emergency_event_py.
      destruct (mem _ EMERGENCY_STATUSES); [|exact Hwf].
      apply create_keeps_wf; [exact Hwf|].
      exact (latest_open_none _ _ _ Hs Hl).
Qed.

Lemma persist_keeps_one_open_event_witness :
  events_wf [] /\
  events_wf (emergencies (fst (fst (persist_py (fun _ => []) (mkTurn "me cai" "dev1" None)
                                      (FD "emergencia" None "emergencia_check") None None
                                      (mkStore [] []))))).
Proof.
  assert (H : events_wf []) by (split; [constructor|split; intros; contradiction]).
  split; [exact H|].
  exact (persist_keeps_one_open_event (fun _ => []) (mkTurn "me cai" "dev1" None)
           (FD "emergencia" None "emergencia_check") None None (mkStore [] []) H).
Defined.

(** ** Further properties: emergency endpoints *)

Lemma emergency_status_ok_iff evs devs device_id :
  emergency_status evs devs device_id = "ok" <-> forall e, In e evs -> open_of device_id e = false.
Proof.
  unfold emergency_status, get_active_emergency_for_device.
  destruct (get_latest_open_emergency evs device_id None) as [em|] eqn:E.
  - cbn [a_status]. split; [discriminate|].
    intro H. destruct (latest_open_some _ _ _ _ E) as [Hin Ho]. rewrite (H em Hin) in Ho. discriminate.
  - split; [intros _|reflexivity]. apply latest_open_none_iff. exact E.
Qed.

(** X11: [GET /emergency-status/{device_id}] reports "ok" exactly when the
    device has no open event in any session; otherwise it reports an open
    event of the device with a non-empty protocol: the event's action when
    truthy, else "escalate". *)
Theorem emergency_status_reflects_open (evs : list EmergencyEvent) (devs : list Device)
    (device_id : string) :
  (emergency_status evs devs device_id = "ok" <->
   forall e, In e evs -> open_of device_id e = false) /\
  (forall a, get_active_emergency_for_device evs devs device_id = Some a ->
   a_status a = "emergency" /\ a_protocol a <> "" /\
   exists em, In em evs /\ open_of device_id em = true /\ a_emergency_id a = e_id em /\
     a_protocol a = (if truthy (e_action em) then match e_action em with Some x => x | None => "" end
                     else "escalate")).
Proof.
  split; [apply emergency_status_ok_iff|].
  intros a. unfold get_active_emergency_for_device.
  destruct (get_latest_open_emergency evs device_id None) as [em|] eqn:E; [|discriminate].
  intro H. injection H as <-. cbn [a_status a_protocol a_emergency_id].
  split; [reflexivity|]. split.
  - destruct (truthy (e_action em)) eqn:Ea; [|discriminate].
    destruct (e_action em) as [x|]; [|discriminate].
    cbn [truthy] in Ea. apply negb_true_iff, str_eqb_neq in Ea. exact Ea.
  - destruct (latest_open_some _ _ _ _ E) as [Hin Ho]. exists em. auto.
Qed.

(** X12: on a table that keeps the invariant, [DELETE /emergencies/{id}]
    of the open event of a device answers "cancelled", keeps the
    invariant, and the status endpoint then reports "ok" for the device. *)
Theorem delete_open_emergency_clears_status (evs : list EmergencyEvent) (devs : list Device)
    (device_id : string) (ev : EmergencyEvent)
    (Hwf : events_wf evs) (Hin : In ev evs) (Ho : open_of device_id ev = true) :
  let '(res, evs') := delete_emergency_api evs (e_id ev) in
  res = HttpOk "cancelled" /\ events_wf evs' /\ emergency_status evs' devs device_id = "ok".
Proof.
  unfold delete_emergency_api, update_emergency_status_py. cbn [negb mem existsb str_eqb].
  replace (negb (mem "cancelled" EMERGENCY_STATUSES)) with false by reflexivity.
  assert (Hex : existsb (fun e => Nat.eqb (e_id e) (e_id ev)) evs = true).
  { apply existsb_exists. exists ev. split; [exact Hin|apply Nat.eqb_refl]. }
  rewrite Hex.
  assert (Hopen : is_open ev = true)
    by (unfold open_of in Ho; apply andb_true_iff in Ho; tauto).
  split; [reflexivity|]. split; [apply update_keeps_wf; assumption|].
  apply emergency_status_ok_iff. intros e' He'.
  destruct (in_update_emergency _ _ _ _ _ He') as (e & He & [(_ & _ & _ & Hs)|(Hn & ->)]).
  - unfold open_of. rewrite (is_open_cancelled _ Hs), andb_false_r. reflexivity.
  - destruct (open_of device_id e) eqn:Oe; [|reflexivity]. exfalso.
    destruct Hwf as (_ & _ & Hone).
    unfold open_of in Oe, Ho. apply andb_true_iff in Oe as [De Oe]. apply andb_true_iff in Ho as [Dv Ov].
    apply str_eqb_eq in De, Dv. apply Hn. f_equal. apply Hone; congruence.
Qed.

Lemma delete_open_emergency_clears_status_witness :
  let ev := mkEvent 0 "dev1" None "confirming" "emergencia_check" None None in
  events_wf [ev] /\ In ev [ev] /\ open_of "dev1" ev = true /\
  (let '(res, evs') := delete_emergency_api [ev] (e_id ev) in
   res = HttpOk "cancelled" /\ events_wf evs' /\ emergency_status evs' [] "dev1" = "ok").
Proof.
  intros ev.
  assert (H1 : events_wf [ev]).
  { split; [constructor; [intros []|constructor]|]. split.
    - intros e [<-|[]]. cbn. lia.
    - intros e1 e2 [<-|[]] [<-|[]] _ _ _. reflexivity. }
  assert (H2 : In ev [ev]) by (left; reflexivity).
  assert (H3 : open_of "dev1" ev = true) by reflexivity.
  split; [exact H1|]. split; [exact H2|]. split; [exact H3|].
  exact (delete_open_emergency_clears_status [ev] [] "dev1" ev H1 H2 H3).
Defined.

(** ** Further properties: reminder endpoints *)


Lemma key_eqb_eq a b : key_eqb a b = true <-> a = b.
Proof.
  destruct a as [t1 d1], b as [t2 d2]. unfold key_eqb. cbn [fst snd].
  rewrite andb_true_iff, str_eqb_eq. split.
  - intros [-> H]. destruct d1, d2; cbn in H; try discriminate; [|reflexivity].
    apply Z.eqb_eq in H. subst. reflexivity.
  - intro H. injection H as -> ->. split; [reflexivity|].
    destruct d2; cbn; [apply Z.eqb_refl|reflexivity].
Qed.

Lemma dedup_sub seen xs r : In r (dedup_reminders seen xs) -> In r xs.
Proof.
  revert seen. induction xs as [|x t IH]; intros seen; [intros []|]. cbn [dedup_reminders].
  destruct (existsb _ seen).
  - intro H. right. exact (IH _ H).
  - intros [<-|H]; [left; reflexivity|right; exact (IH _ H)].
Qed.

Lemma dedup_keys seen xs :
  (forall r, In r (dedup_reminders seen xs) -> ~ In (reminder_key r) seen) /\
  NoDup (map reminder_key (dedup_reminders seen xs)).
Proof.
  revert seen. induction xs as [|x t IH]; intros seen; [split; [intros _ []|constructor]|].
  cbn [dedup_reminders]. destruct (existsb (key_eqb (reminder_key x)) seen) eqn:E; [apply IH|].
  destruct (IH (reminder_key x :: seen)) as [H1 H2].
  assert (Nx : ~ In (reminder_key x) seen).
  { intro Hk. assert (existsb (key_eqb (reminder_key x)) seen = true)
      by (apply existsb_exists; exists (reminder_key x); split; [exact Hk|apply key_eqb_eq; reflexivity]).
    congruence. }
  split.
  - intros r [<-|Hr]; [exact Nx|]. intro Hk. apply (H1 r Hr). right. exact Hk.
  - cbn [map]. constructor; [|exact H2].
    intro Hk. apply in_map_iff in Hk as (r & Hkr & Hr). apply (H1 r Hr). left. symmetry. exact Hkr.
Qed.

Lemma dedup_complete seen xs r :
  In r xs -> In (reminder_key r) seen \/
             exists r', In r' (dedup_reminders seen xs) /\ reminder_key r' = reminder_key r.
Proof.
  revert seen. induction xs as [|x t IH]; intros seen; [intros []|]. cbn [dedup_reminders].
  intros [->|Hr].
  - destruct (existsb (key_eqb (reminder_key r)) seen) eqn:E.
    + left. apply existsb_exists in E as (k & Hk & Hkr). apply key_eqb_eq in Hkr. subst. exact Hk.
    + right. exists r. split; [left|]; reflexivity.
  - destruct (existsb (key_eqb (reminder_key x)) seen); [apply IH; exact Hr|].
    destruct (IH (reminder_key x :: seen) Hr) as [[Hk|Hk]|(r' & Hr' & Hk)].
    + right. exists x. split; [left; reflexivity|exact Hk].
    + left. exact Hk.
    + right. exists r'. split; [right; exact Hr'|exact Hk].
Qed.

Lemma in_firstn_in {A} n (l : list A) x : In x (firstn n l) -> In x l.
Proof.
  intro H. rewrite <- (firstn_skipn n l). apply in_or_app. left. exact H.
Qed.

(** X14: [GET /reminders] returns at most 200 rows, each a row of the
    device (with the requested status when one is given), never two rows
    with the same (title, due_at), and one row for every (title, due_at)
    among the listed rows; the [session_id] parameter does not change the
    result. *)
Theorem list_reminders_api_props (rems : list Reminder) (device_id : string)
    (status : option string) (limit : Z) (session_id : option string) :
  let out := list_reminders_api rems device_id status limit session_id in
  (length out <= 200)%nat /\
  (forall r, In r out -> In r rems /\ r_device r = device_id /\
                         (truthy status = true -> status = Some (r_status r))) /\
  NoDup (map reminder_key out) /\
  (forall r, In r (list_reminders_repo rems device_id status (clamp_limit limit) session_id) ->
   exists r', In r' out /\ reminder_key r' = reminder_key r) /\
  (forall session_id', list_reminders_api rems device_id status limit session_id' = out).
Proof.
  cbv zeta. unfold list_reminders_api.
  set (xs := list_reminders_repo rems device_id status (clamp_limit limit) session_id).
  assert (Hsl : sql_limit (clamp_limit limit)
                  (rev (filter (fun r => str_eqb (r_device r) device_id
                                         && (if truthy status then opt_eqb (Some (r_status r)) status
                                             else true)) rems))
                = firstn (Z.to_nat (clamp_limit limit))
                  (rev (filter (fun r => str_eqb (r_device r) device_id
                                         && (if truthy status then opt_eqb (Some (r_status r)) status
                                             else true)) rems))).
  { unfold sql_limit. replace (clamp_limit limit <? 0)%Z with false; [reflexivity|].
    symmetry. apply Z.ltb_ge. unfold clamp_limit. lia. }
  split; [|split; [|split; [|split]]].
  - assert (Hd : forall seen ys, (length (dedup_reminders seen ys) <= length ys)%nat).
    { intros seen ys. revert seen. induction ys as [|x t IH]; intro seen; [cbn; lia|].
      cbn [dedup_reminders]. destruct (existsb _ seen); cbn [length];
        [specialize (IH seen); lia|specialize (IH (reminder_key x :: seen)); lia]. }
    eapply Nat.le_trans; [apply Hd|].
    unfold xs, list_reminders_repo. rewrite Hsl, length_firstn.
    assert (Z.to_nat (clamp_limit limit) <= 200)%nat by (unfold clamp_limit; lia). lia.
  - intros r Hr. apply dedup_sub in Hr. unfold xs, list_reminders_repo in Hr. rewrite Hsl in Hr.
    apply in_firstn_in, in_rev, filter_In in Hr as [Hin Hf].
    apply andb_true_iff in Hf as [Hd Hs]. apply str_eqb_eq in Hd.
    split; [exact Hin|]. split; [exact Hd|]. intro Ht. rewrite Ht in Hs.
    destruct status as [st|]; [|discriminate]. cbn in Hs. apply str_eqb_eq in Hs. congruence.
  - apply dedup_keys.
  - intros r Hr. destruct (dedup_complete [] xs r Hr) as [[]|H]. exact H.
  - intros s'. reflexivity.
Qed.

(** X15: [GET /emergencies] with a truthy [session_id] answers 500: the
    session filter names a column the [EmergencyEvent] model lacks;
    without one it returns at most 200 events, all of the device (with the
    requested status when one is given). *)
Theorem list_emergencies_api_props (evs : list EmergencyEvent) (device_id : string)
    (status : option string) (limit : Z) (session_id : option string) :
  (truthy session_id = true ->
   list_emergencies_api evs device_id status limit session_id = HttpError 500 "AttributeError") /\
  (truthy session_id = false ->
   exists items, list_emergencies_api evs device_id status limit session_id = HttpOk items /\
   (length items <= 200)%nat /\
   forall e, In e items -> In e evs /\ e_device e = device_id /\
                           (truthy status = true -> status = Some (e_status e))).
Proof.
  unfold list_emergencies_api, list_emergencies_py.
  split; intro Hs; rewrite Hs; [reflexivity|].
  eexists. split; [reflexivity|].
  unfold sql_limit. replace (clamp_limit limit <? 0)%Z with false
    by (symmetry; apply Z.ltb_ge; unfold clamp_limit; lia).
  split.
  - rewrite length_firstn. assert (Z.to_nat (clamp_limit limit) <= 200)%nat
      by (unfold clamp_limit; lia). lia.
  - intros e He. apply in_firstn_in, in_rev, filter_In in He as [Hin Hf].
    apply andb_true_iff in Hf as [Hd Hst]. apply str_eqb_eq in Hd.
    split; [exact Hin|]. split; [exact Hd|]. intro Ht. rewrite Ht in Hst.
    destruct status as [x|]; [|discriminate]. cbn in Hst. apply str_eqb_eq in Hst. congruence.
Qed.

Lemma list_emergencies_api_props_witness :
  truthy (Some "s1") = true /\
  list_emergencies_api [] "dev1" None 50 (Some "s1") = HttpError 500 "AttributeError".
Proof.
  assert (H : truthy (Some "s1") = true) by reflexivity.
  split; [exact H|]. exact (proj1 (list_emergencies_api_props [] "dev1" None 50 (Some "s1")) H).
Defined.

(** ** Further properties: reminder lookup and clean-up *)

Lemma hd_rev_none {A} (l : list A) : hd_error (rev l) = None <-> l = [].
Proof.
  destruct l as [|a t]; [split; reflexivity|]. cbn [rev]. split; [|discriminate].
  destruct (rev t); discriminate.
Qed.

(** What [find_similar_reminder] returns, for any session filter. *)
Lemma find_similar_reminder_props (rems : list Reminder) (device_id title : string)
    (due_at : option Z) (session_id : option string) :
  let cands := filter (reminder_matches device_id title session_id) rems in
  let res := find_similar_reminder rems device_id title due_at session_id in
  (res = None <-> cands = []) /\
  (forall r, res = Some r -> In r rems /\ reminder_matches device_id title session_id r = true) /\
  (forall d, due_at = Some d -> (exists r, In r cands /\ due_within d r = true) ->
   exists r, res = Some r /\ due_within d r = true) /\
  (forall d, due_at = Some d -> (forall r, In r cands -> due_within d r = false) ->
   res = hd_error (rev cands)).
Proof.
  cbv zeta. unfold find_similar_reminder.
  set (cands := filter (reminder_matches device_id title session_id) rems).
  change (match rev cands with [] => None | r :: _ => Some r end) with (hd_error (rev cands)).
  assert (Hhd : forall r, hd_error (rev cands) = Some r ->
                In r rems /\ reminder_matches device_id title session_id r = true).
  { intros r H. revert H. destruct (rev cands) as [|x t] eqn:E; [discriminate|].
    intro H. injection H as <-.
    assert (Hx : In x cands) by (apply in_rev; rewrite E; left; reflexivity).
    apply filter_In in Hx. exact Hx. }
  destruct due_at as [d|].
  - change (fun r => match r_due r with
                     | Some rd => (Z.abs (rd - d) <=? window_hours * 3600)%Z
                     | None => false
                     end) with (due_within d).
    destruct (find (due_within d) (rev cands)) as [r|] eqn:F.
    + apply find_some in F as [Fin Fw]. apply in_rev in Fin.
      split; [split; [discriminate|intro E; rewrite E in Fin; contradiction]|].
      split; [intros r' H; injection H as <-; apply filter_In; exact Fin|].
      split; [intros d' H _; injection H as <-; exists r; auto|].
      intros d' H Hall. injection H as <-. rewrite (Hall r Fin) in Fw. discriminate.
    + split; [apply hd_rev_none|]. split; [exact Hhd|]. split.
      * intros d' H (r & Hr & Hw). injection H as <-. exfalso.
        pose proof (find_none _ _ F r (proj1 (in_rev _ _) Hr)) as Hn. congruence.
      * intros d' _ _. reflexivity.
  - split; [apply hd_rev_none|]. split; [exact Hhd|]. split; intros d' H; discriminate.
Qed.

Lemma find_similar_untruthy rems device_id title due_at session_id :
  truthy session_id = false ->
  find_similar_reminder rems device_id title due_at session_id
  = find_similar_reminder rems device_id title due_at None.
Proof.
  intro Hs.
  assert (E : filter (reminder_matches device_id title session_id) rems
              = filter (reminder_matches device_id title None) rems).
  { apply filter_ext. intro r. unfold reminder_matches. rewrite Hs. reflexivity. }
  unfold find_similar_reminder. rewrite E. reflexivity.
Qed.

(** X16: [repository.find_similar_reminder] raises [AttributeError] for
    every truthy [session_id]: the session filter names a column the
    [Reminder] model lacks. Without one, a row passes its filters when it
    belongs to the device and, for a non-empty title, has that title; it
    finds nothing exactly when no row passes them; what it returns passes
    them; with a due time it prefers a candidate due within 24 hours of it,
    and when no candidate is, it falls back to the newest candidate
    whatever its due time. *)
Theorem find_similar_reminder_spec (rems : list Reminder) (device_id title : string)
    (due_at : option Z) (session_id : option string) :
  (truthy session_id = true ->
   find_similar_reminder_py rems device_id title due_at session_id = PyExc "AttributeError") /\
  (truthy session_id = false ->
   let cands := filter (reminder_matches device_id title None) rems in
   exists res, find_similar_reminder_py rems device_id title due_at session_id = PyOk res /\
   (res = None <-> cands = []) /\
   (forall r, res = Some r -> In r rems /\ reminder_matches device_id title None r = true) /\
   (forall d, due_at = Some d -> (exists r, In r cands /\ due_within d r = true) ->
    exists r, res = Some r /\ due_within d r = true) /\
   (forall d, due_at = Some d -> (forall r, In r cands -> due_within d r = false) ->
    res = hd_error (rev cands))).
Proof.
  unfold find_similar_reminder_py. split.
  - intro Hs. rewrite Hs. reflexivity.
  - intro Hs. rewrite Hs. cbv zeta.
    exists (find_similar_reminder rems device_id title due_at session_id).
    split; [reflexivity|]. rewrite (find_similar_untruthy _ _ _ _ _ Hs).
    exact (find_similar_reminder_props rems device_id title due_at None).
Qed.

Lemma find_similar_reminder_spec_witness :
  let rems := [mkReminder 1 "dev1" None "caminar" (Some 0%Z) None "draft";
               mkReminder 2 "dev1" None "caminar" (Some 900000%Z) None "draft"] in
  find_similar_reminder_py rems "dev1" "caminar" (Some 400000%Z) (Some "s1")
  = PyExc "AttributeError" /\
  find_similar_reminder_py rems "dev1" "caminar" (Some 400000%Z) None
  = PyOk (Some (mkReminder 2 "dev1" None "caminar" (Some 900000%Z) None "draft")).
Proof.
  intros rems.
  split; [apply (proj1 (find_similar_reminder_spec rems "dev1" "caminar" (Some 400000%Z) (Some "s1")));
          reflexivity|].
  destruct (proj2 (find_similar_reminder_spec rems "dev1" "caminar" (Some 400000%Z) None) eq_refl)
    as (res & E & _ & _ & _ & H4).
  rewrite E, (H4 400000%Z eq_refl); [reflexivity|].
  intros r Hr. cbn in Hr. destruct Hr as [<-|[<-|[]]]; reflexivity.
Defined.


(** ** Further properties: code-fence removal of the advisory reply *)

Lemma rev_string_app (s t acc : string) :
  rev_string (s ++ t) acc = rev_string t (rev_string s acc).
Proof.
  revert acc. induction s as [|c s IH]; intro acc; cbn; [reflexivity|apply IH].
Qed.

Lemma rev_string_rev_string (s a b : string) :
  rev_string (rev_string s a) b = rev_string a (s ++ b).
Proof.
  revert a. induction s as [|c s IH]; intro a; cbn; [reflexivity|]. rewrite IH. reflexivity.
Qed.

Lemma string_app_nil_r (s : string) : s ++ "" = s.
Proof. induction s as [|c s IH]; cbn; [reflexivity|]. rewrite IH. reflexivity. Qed.

Lemma split_lines_aux_app (s rest cur : string) :
  no_newline s = true ->
  split_lines_aux (s ++ rest) cur = split_lines_aux rest (rev_string s cur).
Proof.
  revert cur. induction s as [|c s IH]; intros cur H; cbn; [reflexivity|].
  unfold no_newline in H. cbn in H. apply andb_true_iff in H as [Hc Hs].
  apply negb_true_iff in Hc. rewrite Hc. apply IH. exact Hs.
Qed.

Lemma split_join_lines (xs : list string) :
  xs <> [] -> forallb no_newline xs = true -> split_lines (join_lines xs) = xs.
Proof.
  unfold split_lines. induction xs as [|x t IH]; intros Hne H; [congruence|].
  cbn [forallb] in H. apply andb_true_iff in H as [Hx Ht].
  destruct t as [|y t].
  - cbn [join_lines]. rewrite <- (string_app_nil_r x) at 1.
    rewrite split_lines_aux_app by exact Hx. cbn.
    rewrite rev_string_rev_string, string_app_nil_r. reflexivity.
  - change (join_lines (x :: y :: t))
      with (x ++ String (ascii_of_nat 10) EmptyString ++ join_lines (y :: t)).
    rewrite split_lines_aux_app by exact Hx. cbn [append split_lines_aux].
    change (nat_of_ascii (ascii_of_nat 10) =? 10)%nat with true. cbn iota.
    rewrite rev_string_rev_string, string_app_nil_r, IH by (congruence || exact Ht).
    reflexivity.
Qed.

Lemma string_app_assoc (a b c : string) : a ++ (b ++ c) = (a ++ b) ++ c.
Proof. induction a as [|x a IH]; cbn; [reflexivity|]. rewrite IH. reflexivity. Qed.

Lemma prefix_app (s t : string) : prefix s (s ++ t) = true.
Proof.
  induction s as [|c s IH]; cbn; [destruct t; reflexivity|].
  destruct (ascii_dec c c); [exact IH|congruence].
Qed.

Lemma filter_all_true {A} (f : A -> bool) (xs : list A) :
  forallb f xs = true -> filter f xs = xs.
Proof.
  induction xs as [|x t IH]; cbn; [reflexivity|].
  intro H. apply andb_true_iff in H as [Hx Ht]. rewrite Hx, IH by exact Ht. reflexivity.
Qed.

(** X18: a reply wrapped in a code fence, an opening line "```" followed by a tag
    such as "json" and a closing line "```", is unwrapped by [strip_fences] to
    its stripped body, provided the tag and body lines hold no newline and no
    body line itself starts with "```". *)
Theorem strip_fences_unwraps (tag : string) (body : list string)
    (Htag : no_newline tag = true)
    (Hbody : forallb (fun l => no_newline l && negb (prefix fence l)) body = true) :
  strip_fences (join_lines ((fence ++ tag) :: app body [fence])) = strip (join_lines body).
Proof.
  assert (Hnl : forallb no_newline ((fence ++ tag) :: app body [fence]) = true).
  { cbn [forallb]. apply andb_true_iff. split.
    - unfold no_newline. cbn. exact Htag.
    - rewrite forallb_app. apply andb_true_iff. split; [|reflexivity].
      apply forallb_forall. intros l Hl. eapply forallb_forall in Hbody; [|exact Hl].
      apply andb_true_iff in Hbody as [H _]. exact H. }
  unfold strip_fences.
  assert (Hp : prefix fence (join_lines ((fence ++ tag) :: app body [fence])) = true).
  { destruct (app body [fence]) as [|y t]; cbn [join_lines].
    - apply prefix_app.
    - rewrite <- string_app_assoc. apply prefix_app. }
  rewrite Hp, split_join_lines by (discriminate || exact Hnl).
  cbn [inner_lines]. rewrite removelast_last, filter_all_true; [reflexivity|].
  apply forallb_forall. intros l Hl. eapply forallb_forall in Hbody; [|exact Hl].
  apply andb_true_iff in Hbody as [_ H]. exact H.
Qed.

Lemma strip_fences_unwraps_witness :
  no_newline "json" = true /\
  forallb (fun l => no_newline l && negb (prefix fence l)) ["{"; "  x"; "} "] = true /\
  strip_fences (join_lines ((fence ++ "json") :: app ["{"; "  x"; "} "] [fence]))
  = strip (join_lines ["{"; "  x"; "} "]).
Proof.
  split; [reflexivity|]. split; [reflexivity|].
  apply strip_fences_unwraps; reflexivity.
Defined.
